(** * aia_all.py: the AIA/HMI composite figure script

    A shallow embedding of [05-plotting/aia_all.py].  The script is a linear
    pipeline: load the downloaded files as SunPy maps, group them by
    wavelength, crop them, allocate nine matplotlib axes and draw.

    - Python dictionaries are [gmap]s keyed by the wavelength.  The keys the
      script writes are the integers 335, 211, ... and the float 6173.0,
      which as a dictionary key is the same key as 6173; they are modelled
      in [Z].
    - A failing subscript [d[key]] raises [KeyError], which nothing in the
      script catches: fallible statements return [result], and a [KeyError]
      ends the run.
    - SunPy's map objects and their methods ([rotate], [submap], the
      attributes read by [imshow]) are library code; the script is embedded
      over an interface [SunpyMap] of exactly the members it uses.
    - The matplotlib figure is the list of axes rectangles in creation order
      together with the log of the method calls issued on those axes; an
      axes object is identified by its position in the creation order, so
      that the [axes] dictionary and the figure refer to the same objects.
    - Figure coordinates are the rationals the float literals denote: 0.25,
      1.-0.25 and 1.0-2*0.25 and the products i*0.25 are exact in binary
      floating point.
    - The script is Python 2 (SunPy 0.5 API: [vso.VSOClient().query],
      plain-number [wavelength], list-valued [xrange]); the builtin [map]
      of line 95 is therefore the eager one, which calls its function on
      every element. *)

From Stdlib Require Import QArith Lqa.
From stdpp Require Import gmap list strings.

Close Scope Q_scope.
#[local] Set Warnings "-clear-no-such-hyp".
Local Open Scope Z_scope.

(** ** Python values and errors *)

Inductive result (A : Type) : Type :=
| Ok (a : A)
| KeyError (key : Z).
Arguments Ok {A} a.
Arguments KeyError {A} key.

Global Instance result_ret : MRet result := λ A a, Ok a.
Global Instance result_bind : MBind result := λ A B k r,
  match r with
  | Ok a => k a
  | KeyError key => KeyError key
  end.

(** [d[key]] *)
Definition getitem {V} (d : gmap Z V) (key : Z) : result V :=
  match d !! key with
  | Some v => Ok v
  | None => KeyError key
  end.

(** [{k: v for k, v in l}] and [d.update(...)]: later items overwrite
    earlier ones with the same key. *)
Definition dict_of_list {V} (l : list (Z * V)) : gmap Z V :=
  foldl (λ d kv, <[kv.1 := kv.2]> d) ∅ l.

(** [d.keys()] and [d.values()] (lists in Python 2). *)
Definition keys {V} (d : gmap Z V) : list Z := (map_to_list d).*1.
Definition values {V} (d : gmap Z V) : list V := (map_to_list d).*2.

(** [[f(x) for x in l]] where [f] may raise. *)
Fixpoint list_comp {A B} (f : A → result B) (l : list A) : result (list B) :=
  match l with
  | [] => Ok []
  | x :: l' => y ← f x; ys ← list_comp f l'; Ok (y :: ys)
  end.

(** [l[:-1]] and [l[-1]] *)
Definition all_but_last {A} (l : list A) : list A := take (length l - 1)%nat l.
Definition last_item (l : list Z) : Z := List.last l 0.

(** ** The SunPy map interface used by the script *)

Class SunpyMap (Map : Type) : Type := {
  Data : Type;
  Cmap : Type;
  Norm : Type;
  Coord : Type;
  wavelength : Map → Z;
  data : Map → Data;
  cmap : Map → Cmap;
  mpl_color_normalizer : Map → Norm;
  xrange : Map → list Coord;
  yrange : Map → list Coord;
  (** [m.rotate(order=n)] *)
  rotate : Z → Map → Map;
  (** [m.submap(range_a, range_b)] *)
  submap : Map → Z * Z → Z * Z → Map
}.

(** ** Parameters (lines 25-29, 62) *)

Definition bx : Z := -300.
Definition by_ : Z := -150.
Definition w : Z := 600.
Definition h : Z := 300.
Definition label_padx : Z := 50.
Definition label_pady : Z := 20.

Definition sorted_wavelengths : list Z :=
  [335; 211; 171; 304; 6173; 193; 131; 94; 1700].

(** ** The matplotlib figure *)

(** [[left, bottom, width, height]] in figure-relative coordinates. *)
Record Rect : Type := mkRect {
  r_left : Q;
  r_bottom : Q;
  r_width : Q;
  r_height : Q
}.

(** The open and the closed rectangle a region occupies in the figure. *)
Definition interior (r : Rect) (x y : Q) : Prop :=
  (r_left r < x ∧ x < r_left r + r_width r ∧
   r_bottom r < y ∧ y < r_bottom r + r_height r)%Q.
Definition covers (r : Rect) (x y : Q) : Prop :=
  (r_left r <= x ∧ x <= r_left r + r_width r ∧
   r_bottom r <= y ∧ y <= r_bottom r + r_height r)%Q.

(** The text of a label: [(key*u.AA).to(u.nm)._repr_latex_()] for a
    wavelength in Angstrom, or a string literal. *)
Inductive Label : Type :=
| LatexNm (key : Z)
| Literal (s : string).

(** [plt.Rectangle(xy, width, height, fc=...)] *)
Inductive Patch : Type :=
| Rectangle (xy : Z * Z) (width height : Z) (fc : string).

Section Script.
Context {Map : Type} `{SunpyMap Map}.

Inductive Call : Type :=
| Imshow (d : Data) (cm : Cmap) (norm : Norm) (extent : list Coord)
| Text (x y : Z) (s : Label) (color : string) (fontsize : Z)
| SetXTicks (ticks : list Z)
| SetYTicks (ticks : list Z)
| AddPatch (p : Patch).

Record Figure : Type := mkFigure {
  figsize : Z * Z;
  fig_axes : list Rect;
  fig_calls : list (nat * Call)
}.

(** [plt.figure(figsize=...)] *)
Definition plt_figure (size : Z * Z) : Figure := mkFigure size [] [].

(** [fig.add_axes(rect)] returns the new axes. *)
Definition add_axes (r : Rect) (fig : Figure) : nat * Figure :=
  (length (fig_axes fig),
   mkFigure (figsize fig) (fig_axes fig ++ [r]) (fig_calls fig)).

(** [[fig.add_axes(r) for r in rs]] *)
Fixpoint add_axes_each (rs : list Rect) (fig : Figure) : list nat * Figure :=
  match rs with
  | [] => ([], fig)
  | r :: rs' =>
      let '(ax, fig1) := add_axes r fig in
      let '(axs, fig2) := add_axes_each rs' fig1 in
      (ax :: axs, fig2)
  end.

(** A method call [ax.method(...)] on an axes of the figure. *)
Definition call (ax : nat) (c : Call) (fig : Figure) : Figure :=
  mkFigure (figsize fig) (fig_axes fig) (fig_calls fig ++ [(ax, c)]).

(** ** Map construction (lines 51-56) *)

(** [mapw = {map.wavelength: map.rotate(order=3) for map in maps}] followed
    by [mapw.update({6173.0: hmimap})], where [hmimap] is the rotated HMI
    map. *)
Definition build_mapw (aia_maps : list Map) (hmi : Map) : gmap Z Map :=
  let hmimap := rotate 3 hmi in
  let mapw := dict_of_list ((λ m, (wavelength m, rotate 3 m)) <$> aia_maps) in
  <[6173 := hmimap]> mapw.

(** ** Cropping (lines 65-66) *)

Definition crop (mapw : gmap Z Map) : result (gmap Z Map) :=
  ms ← list_comp (getitem mapw) (all_but_last sorted_wavelengths);
  let maps :=
    dict_of_list ((λ m, (wavelength m, submap m (bx, bx + w) (by_, by_ + h))) <$> ms) in
  m1700 ← getitem mapw 1700;
  Ok (<[1700 := submap m1700 (-1000, 1000) (-1000, 1000)]> maps).

(** ** Layout (lines 71-82) *)

Definition height : Q := 0.25%Q.
Definition edge_width : Q := 0.25%Q.

Definition range (n : nat) : list Z := Z.of_nat <$> seq 0 n.

Definition left_rects : list Rect :=
  (λ i, mkRect 0 (inject_Z i * height) edge_width height) <$> range 4.
Definition right_rects : list Rect :=
  (λ i, mkRect (1 - edge_width) (inject_Z i * height) edge_width height) <$> range 4.
Definition centre_rects : list Rect :=
  [mkRect edge_width 0 (1 - 2 * edge_width) 1].

(** [axes = {wave: ax for wave, ax in zip(sorted_wavelengths, ...)}]: [zip]
    stops at the shorter list and the comprehension has no failing path. *)
Definition build_axes (order : list Z) (regions : list nat) : result (gmap Z nat) :=
  Ok (dict_of_list (zip order regions)).

(** ** Drawing (lines 84-109) *)

Definition mapwplot (axes : gmap Z nat) (maps : gmap Z Map) (key : Z)
    (fig : Figure) : result Figure :=
  ax ← getitem axes key;
  m ← getitem maps key;
  let fig :=
    call ax (Imshow (data m) (cmap m) (mpl_color_normalizer m)
                    (xrange m ++ yrange m)) fig in
  if bool_decide (key ∉ [6173; last_item sorted_wavelengths])
  then Ok (call ax (Text (bx + label_padx) (by_ + label_pady) (LatexNm key) "w" 16) fig)
  else Ok fig.

(** The builtin [map(f, l)] of Python 2, for an [f] called for its effect
    on the figure. *)
Fixpoint py2_map (f : Z → Figure → result Figure) (l : list Z)
    (fig : Figure) : result Figure :=
  match l with
  | [] => Ok fig
  | x :: l' => fig1 ← f x fig; py2_map f l' fig1
  end.

(** [[ax.method(...) for ax in axs]] *)
Definition call_each (c : Call) (axs : list nat) (fig : Figure) : Figure :=
  foldl (λ fig ax, call ax c fig) fig axs.

Definition render (maps : gmap Z Map) : result Figure :=
  let fig := plt_figure (10, 5) in
  let '(left_axes, fig) := add_axes_each left_rects fig in
  let '(right_axes, fig) := add_axes_each right_rects fig in
  let '(centre_axes, fig) := add_axes_each centre_rects fig in
  axes ← build_axes sorted_wavelengths (left_axes ++ right_axes ++ centre_axes);
  fig ← py2_map (mapwplot axes maps) (keys maps) fig;
  let fig := call_each (SetXTicks []) (values axes) fig in
  let fig := call_each (SetYTicks []) (values axes) fig in
  ax ← getitem axes 6173;
  let fig := call ax (Text (bx + label_padx) (by_ + label_padx)
                           (Literal "LOS Magnetic Field") "w" 16) fig in
  ax ← getitem axes (last_item sorted_wavelengths);
  let fig := call ax (Text (-950) (-990) (LatexNm 1700) "w" 16) fig in
  let re := Rectangle (bx, by_) w h "none" in
  ax ← getitem axes (last_item sorted_wavelengths);
  let fig := call ax (AddPatch re) fig in
  Ok fig.

(** The script from the loaded files on: [aia_maps] are the maps of the
    files [aia_lev1_*], [hmi] the map of the file [hmi_*]. *)
Definition script (aia_maps : list Map) (hmi : Map) : result Figure :=
  let mapw := build_mapw aia_maps hmi in
  maps ← crop mapw;
  render maps.

(** ** Reading a figure *)

(** The calls issued on one axes, in order. *)
Definition calls_on (ax : nat) (fig : Figure) : list Call :=
  omap (λ c : nat * Call, if decide (c.1 = ax) then Some c.2 else None)
       (fig_calls fig).

Definition is_imshow (c : Call) : bool :=
  match c with Imshow _ _ _ _ => true | _ => false end.
Definition is_text (c : Call) : bool :=
  match c with Text _ _ _ _ _ => true | _ => false end.
Definition is_patch (c : Call) : bool :=
  match c with AddPatch _ => true | _ => false end.

(** The images, the texts and the patches drawn on one axes. *)
Definition images_on (ax : nat) (fig : Figure) : list Call :=
  List.filter is_imshow (calls_on ax fig).
Definition texts_on (ax : nat) (fig : Figure) : list Call :=
  List.filter is_text (calls_on ax fig).
Definition patches_on (ax : nat) (fig : Figure) : list Call :=
  List.filter is_patch (calls_on ax fig).

(** The [imshow] call of line 89 for a map. *)
Definition imshow_of (m : Map) : Call :=
  Imshow (data m) (cmap m) (mpl_color_normalizer m) (xrange m ++ yrange m).

End Script.

(** ** Synthetic fixtures

    Solid-colour test images: a map is its wavelength tag, its colour and
    its coordinate ranges.  Rotating a solid-colour image changes nothing;
    cropping it keeps the colour and sets the ranges to the requested
    bounds. *)
Module Synthetic.

Record SolidMap : Type := mkSolid {
  s_wavelength : Z;
  s_colour : Z;
  s_xrange : list Z;
  s_yrange : list Z
}.

#[export] Instance solid_map : SunpyMap SolidMap := {|
  Data := Z;
  Cmap := Z;
  Norm := unit;
  Coord := Z;
  wavelength := s_wavelength;
  data := s_colour;
  cmap := s_wavelength;
  mpl_color_normalizer := λ _, tt;
  xrange := s_xrange;
  yrange := s_yrange;
  rotate := λ _ m, m;
  submap := λ m xr yr, mkSolid (s_wavelength m) (s_colour m) [xr.1; xr.2] [yr.1; yr.2]
|}.

(** A full-disk image of wavelength [wl] whose pixels all have the value
    [colour]. *)
Definition full_disk (wl colour : Z) : SolidMap :=
  mkSolid wl colour [-1228; 1228] [-1228; 1228].

(** The eight AIA files and the HMI file of the end-to-end scenario; every
    image is coloured by its wavelength. *)
Definition aia_files : list SolidMap :=
  (λ wl, full_disk wl wl) <$> [94; 131; 171; 193; 211; 304; 335; 1700].
Definition hmi_file : SolidMap := full_disk 6173 6173.

(** The dictionaries of lines 55-56 and 65-66 for these files. *)
Definition mapw : gmap Z SolidMap := build_mapw aia_files hmi_file.
Definition cropped : gmap Z SolidMap :=
  match crop mapw with
  | Ok maps => maps
  | KeyError _ => ∅
  end.

(** An incomplete download: only the 94, 131 and 171 files arrived. *)
Definition partial_download : list SolidMap := take 3 aia_files.

(** An ordering list with a tenth wavelength, the 1600 channel of AIA. *)
Definition ten_wavelengths : list Z := sorted_wavelengths ++ [1600].

(** A download that also holds the 1600 and 4500 files of AIA. *)
Definition with_other_channels : list SolidMap :=
  full_disk 1600 1600 :: aia_files ++ [full_disk 4500 4500].

(** An HMI file whose header carries no usable wavelength. *)
Definition untagged_hmi_file : SolidMap := full_disk 0 6173.

End Synthetic.

(** ** The crop operation of the specification *)
Module SubmapSpec.

(** A pixel: the coordinates of its centre, in arcseconds, and its value. *)
Record Pixel : Type := mkPixel {
  px_x : Z;
  px_y : Z;
  px_value : Z
}.

(** An image map: pixel data, coordinate metadata (where every pixel lies,
    and the ranges the image spans) and a wavelength tag. *)
Record ImageMap : Type := mkImage {
  im_wavelength : Z;
  im_pixels : list Pixel;
  im_xrange : Z * Z;
  im_yrange : Z * Z
}.

Definition within (r : Z * Z) (c : Z) : bool := (r.1 <=? c) && (c <=? r.2).

Definition in_box (range_a range_b : Z * Z) (p : Pixel) : bool :=
  within range_a (px_x p) && within range_b (px_y p).

(** The part of the range [r] inside the bounds [b]. *)
Definition clip (b r : Z * Z) : Z * Z := (Z.max b.1 r.1, Z.min b.2 r.2).

(** Modelled from the spec: SunPy's [submap] method, which the script calls
    and the repository does not contain.  The specification describes it as
    the extraction of a rectangular sub-region of an image map by coordinate
    bounds: the pixels inside the bounds are kept, in order, the ranges are
    cut down to the bounds, and the wavelength tag is unchanged. *)
Definition submap (m : ImageMap) (range_a range_b : Z * Z) : ImageMap :=
  mkImage (im_wavelength m)
          (List.filter (in_box range_a range_b) (im_pixels m))
          (clip range_a (im_xrange m))
          (clip range_b (im_yrange m)).

(** The crop of line 65. *)
Definition crop_box (m : ImageMap) : ImageMap :=
  submap m (bx, bx + w) (by_, by_ + h).

(** A 3x2 test image around the origin, 200 arcseconds per pixel. *)
Definition sample : ImageMap :=
  mkImage 171
    [mkPixel (-400) (-100) 1; mkPixel 0 (-100) 2; mkPixel 400 (-100) 3;
     mkPixel (-400) 100 4; mkPixel 0 100 5; mkPixel 400 100 6]
    (-500, 500) (-200, 200).

End SubmapSpec.

(** ** The run of the rendering stage, in closed form *)

(** The value of [axes] after line 82: the axes are created in the order
    left, right, centre. *)
Definition script_axes : gmap Z nat :=
  dict_of_list (zip sorted_wavelengths (seq 0 9)).

Section Closed_form.
Context {Map : Type} `{SunpyMap Map}.

(** The two crops of lines 65 and 66. *)
Definition small_box (m : Map) : Map := submap m (bx, bx + w) (by_, by_ + h).
Definition large_box (m : Map) : Map := submap m (-1000, 1000) (-1000, 1000).

(** The figure after line 78. *)
Definition blank_figure : Figure :=
  mkFigure (10, 5) (left_rects ++ right_rects ++ centre_rects) [].

(** The calls one run of [mapwplot] issues on the axes of its key. *)
Definition plot_cmds (maps : gmap Z Map) (key : Z) : list Call :=
  match maps !! key with
  | Some m =>
      imshow_of m ::
      (if bool_decide (key ∉ [6173; last_item sorted_wavelengths])
       then [Text (bx + label_padx) (by_ + label_pady) (LatexNm key) "w" 16]
       else [])
  | None => []
  end.

Definition plot_calls (axes : gmap Z nat) (maps : gmap Z Map) (key : Z)
    : list (nat * Call) :=
  match axes !! key with
  | Some ax => (λ c, (ax, c)) <$> plot_cmds maps key
  | None => []
  end.

(** The calls of lines 98-109. *)
Definition finishing_calls : list (nat * Call) :=
  ((λ ax, (ax, SetXTicks [])) <$> values script_axes) ++
  ((λ ax, (ax, SetYTicks [])) <$> values script_axes) ++
  [(4%nat, Text (bx + label_padx) (by_ + label_padx)
                (Literal "LOS Magnetic Field") "w" 16);
   (8%nat, Text (-950) (-990) (LatexNm 1700) "w" 16);
   (8%nat, AddPatch (Rectangle (bx, by_) w h "none"))].

(** The same calls, read axes by axes. *)
Definition finishing_cmds (ax : nat) : list Call :=
  [SetXTicks []; SetYTicks []] ++
  (if decide (ax = 4%nat)
   then [Text (bx + label_padx) (by_ + label_padx)
              (Literal "LOS Magnetic Field") "w" 16]
   else if decide (ax = 8%nat)
   then [Text (-950) (-990) (LatexNm 1700) "w" 16;
         AddPatch (Rectangle (bx, by_) w h "none")]
   else []).

(** The selection made by [calls_on]. *)
Definition on_axes (ax : nat) (c : nat * Call) : option Call :=
  if decide (c.1 = ax) then Some c.2 else None.

Definition final_figure (maps : gmap Z Map) : Figure :=
  mkFigure (10, 5) (left_rects ++ right_rects ++ centre_rects)
           (concat (plot_calls script_axes maps <$> keys maps) ++ finishing_calls).

End Closed_form.

(** ** More ways to read a figure *)

Section Reading.
Context {Map : Type} `{SunpyMap Map}.

Definition is_set_ticks (c : Call) : bool :=
  match c with SetXTicks _ | SetYTicks _ => true | _ => false end.

End Reading.

(** * Properties *)

(** ** Dictionaries *)

Section Dict.
Context {V : Type}.
Implicit Types (l : list (Z * V)) (d : gmap Z V) (k : Z) (v : V).

Lemma dict_of_list_snoc l k v :
  dict_of_list (l ++ [(k, v)]) = <[k := v]> (dict_of_list l).
Proof. unfold dict_of_list. by rewrite foldl_app. Qed.

Lemma dict_of_list_lookup_None l k :
  dict_of_list l !! k = None ↔ k ∉ l.*1.
Proof.
  induction l as [|[k' v'] l IH] using rev_ind.
  - split; [set_solver | done].
  - rewrite dict_of_list_snoc, fmap_app, lookup_insert_None, IH. set_solver.
Qed.

Lemma dict_of_list_lookup_Some l k v :
  dict_of_list l !! k = Some v → (k, v) ∈ l.
Proof.
  induction l as [|[k' v'] l IH] using rev_ind; [done|].
  rewrite dict_of_list_snoc, lookup_insert_Some. set_solver.
Qed.

(** The item enumerated last among those with key [k] is the one kept. *)
Lemma dict_of_list_lookup_last l1 l2 k v :
  k ∉ l2.*1 → dict_of_list (l1 ++ (k, v) :: l2) !! k = Some v.
Proof.
  revert l1. induction l2 as [|[k' v'] l2 IH] using rev_ind; intros l1 Hk.
  - by rewrite dict_of_list_snoc, lookup_insert_eq.
  - rewrite fmap_app in Hk.
    replace (l1 ++ (k, v) :: l2 ++ [(k', v')])
      with ((l1 ++ (k, v) :: l2) ++ [(k', v')]) by by rewrite <- app_assoc.
    rewrite dict_of_list_snoc, lookup_insert_ne by set_solver.
    apply IH. set_solver.
Qed.

Lemma dict_of_list_lookup_NoDup l k v :
  NoDup l.*1 → (k, v) ∈ l → dict_of_list l !! k = Some v.
Proof.
  intros Hnd (l1 & l2 & ->)%list_elem_of_split.
  apply dict_of_list_lookup_last.
  rewrite fmap_app, fmap_cons in Hnd.
  apply NoDup_app in Hnd as (_ & _ & Hnd). by apply NoDup_cons in Hnd as [? _].
Qed.

Lemma getitem_Ok d k v : getitem d k = Ok v ↔ d !! k = Some v.
Proof. unfold getitem. destruct (d !! k); naive_solver. Qed.

Lemma getitem_KeyError d k k' : getitem d k = KeyError k' ↔ k' = k ∧ d !! k = None.
Proof. unfold getitem. destruct (d !! k); naive_solver. Qed.

Lemma elem_of_keys d k : k ∈ keys d ↔ is_Some (d !! k).
Proof.
  unfold keys. rewrite list_elem_of_fmap. split.
  - intros ([k' v] & -> & Hin). apply elem_of_map_to_list in Hin. by exists v.
  - intros [v Hv]. exists (k, v). by rewrite elem_of_map_to_list.
Qed.

Lemma NoDup_keys d : NoDup (keys d).
Proof. apply NoDup_fst_map_to_list. Qed.

(** A comprehension of subscripts succeeds exactly when every key is
    present, and fails on the first missing one. *)
Lemma list_comp_getitem_Ok d (ks : list Z) (ms : list V) :
  list_comp (getitem d) ks = Ok ms ↔ Forall2 (λ k m, d !! k = Some m) ks ms.
Proof.
  revert ms. induction ks as [|k ks IH]; intros ms; simpl.
  - split; [intros [= <-]; constructor | by intros ->%Forall2_nil_inv_l].
  - unfold mbind, result_bind.
    destruct (getitem d k) as [m|k'] eqn:Hk.
    + apply getitem_Ok in Hk.
      destruct (list_comp (getitem d) ks) as [ms'|k'] eqn:Hks.
      * split.
        -- intros [= <-]. constructor; [done | by apply IH].
        -- intros (m' & ms'' & Hm & Hms & ->)%Forall2_cons_inv_l.
           apply IH in Hms. congruence.
      * split; [done|].
        intros (m' & ms'' & Hm & Hms & ->)%Forall2_cons_inv_l.
        apply IH in Hms. congruence.
    + apply getitem_KeyError in Hk as [-> Hk]. split; [done|].
      intros (m' & ms'' & Hm & Hms & ->)%Forall2_cons_inv_l. congruence.
Qed.

Lemma list_comp_getitem_total d (ks : list Z) :
  (∀ k, k ∈ ks → is_Some (d !! k)) →
  ∃ ms, list_comp (getitem d) ks = Ok ms.
Proof.
  induction ks as [|k ks IH]; intros Hall; simpl; [by eexists|].
  destruct (Hall k) as [m Hm]; [set_solver|].
  destruct IH as [ms Hms]; [set_solver|].
  exists (m :: ms). apply getitem_Ok in Hm. unfold mbind, result_bind.
  by rewrite Hm, Hms.
Qed.

Lemma list_comp_getitem_KeyError d (ks : list Z) k :
  k ∈ ks → d !! k = None →
  ∃ k', list_comp (getitem d) ks = KeyError k' ∧ k' ∈ ks ∧ d !! k' = None.
Proof.
  induction ks as [|k0 ks IH]; intros Hin Hk; [set_solver|]. simpl.
  unfold mbind, result_bind. destruct (getitem d k0) as [m|k1] eqn:Hk0.
  - destruct IH as (k' & -> & ? & ?); [|done|].
    + apply getitem_Ok in Hk0. set_solver.
    + exists k'. set_solver.
  - apply getitem_KeyError in Hk0 as [-> Hk0]. exists k0. set_solver.
Qed.

End Dict.

(** ** The ordering list *)

Lemma all_but_last_sorted_wavelengths :
  all_but_last sorted_wavelengths = [335; 211; 171; 304; 6173; 193; 131; 94].
Proof. reflexivity. Qed.

Lemma last_item_sorted_wavelengths : last_item sorted_wavelengths = 1700.
Proof. reflexivity. Qed.

Lemma sorted_wavelengths_split :
  sorted_wavelengths = all_but_last sorted_wavelengths ++ [1700].
Proof. reflexivity. Qed.

Lemma NoDup_sorted_wavelengths : NoDup sorted_wavelengths.
Proof. by apply (bool_decide_unpack _). Qed.

Lemma elem_of_sorted_wavelengths k :
  k ∈ sorted_wavelengths ↔ k ∈ all_but_last sorted_wavelengths ∨ k = 1700.
Proof. rewrite sorted_wavelengths_split at 1. set_solver. Qed.

Lemma all_but_last_not_1700 k : k ∈ all_but_last sorted_wavelengths → k ≠ 1700.
Proof. intros Hk ->. revert Hk. by apply (bool_decide_unpack _). Qed.

Lemma Forall2_fmap_eq {A B} (P : A → B → Prop) (g : B → A) ks ms :
  Forall2 P ks ms → (∀ k m, k ∈ ks → P k m → g m = k) → g <$> ms = ks.
Proof.
  induction 1 as [|k m ks ms HP _ IH]; intros Hg; csimpl; [done|].
  f_equal; [apply Hg; [left | done] | apply IH].
  intros k' m' Hk'. apply Hg. by right.
Qed.

(** ** Map construction and cropping *)

Section Maps.
Context {Map : Type} `{SunpyMap Map}.
Implicit Types (m : Map) (mapw maps : gmap Z Map) (k : Z).

Lemma crop_Ok_inv mapw maps :
  crop mapw = Ok maps ↔
  ∃ ms m1700,
    Forall2 (λ k m, mapw !! k = Some m) (all_but_last sorted_wavelengths) ms ∧
    mapw !! 1700 = Some m1700 ∧
    maps = <[1700 := large_box m1700]>
             (dict_of_list ((λ m, (wavelength m, small_box m)) <$> ms)).
Proof.
  unfold crop, mbind, result_bind. split.
  - destruct (list_comp _ _) as [ms|] eqn:Hms; [|done].
    destruct (getitem mapw 1700) as [m1700|] eqn:H1700; [|done].
    intros [= <-]. exists ms, m1700.
    by rewrite <- list_comp_getitem_Ok, <- getitem_Ok.
  - intros (ms & m1700 & Hms & H1700 & ->).
    apply list_comp_getitem_Ok in Hms. apply getitem_Ok in H1700.
    by rewrite Hms, H1700.
Qed.

(** Cropping succeeds when every wavelength of the ordering list has a map. *)
Lemma crop_total mapw :
  (∀ k, k ∈ sorted_wavelengths → is_Some (mapw !! k)) →
  ∃ maps, crop mapw = Ok maps.
Proof.
  intros Hall.
  destruct (list_comp_getitem_total mapw (all_but_last sorted_wavelengths))
    as [ms Hms].
  { intros k Hk. apply Hall, elem_of_sorted_wavelengths. by left. }
  destruct (Hall 1700) as [m1700 H1700].
  { apply elem_of_sorted_wavelengths. by right. }
  eexists. apply crop_Ok_inv. exists ms, m1700.
  by rewrite <- list_comp_getitem_Ok.
Qed.

(** Cropping raises on the first wavelength of the ordering list that has
    no map. *)
Lemma crop_KeyError mapw k :
  k ∈ sorted_wavelengths → mapw !! k = None →
  ∃ k', k' ∈ sorted_wavelengths ∧ mapw !! k' = None ∧ crop mapw = KeyError k'.
Proof.
  intros Hk Hnone. unfold crop, mbind, result_bind.
  destruct (list_comp _ _) as [ms|k'] eqn:Hms.
  - apply list_comp_getitem_Ok in Hms.
    apply elem_of_sorted_wavelengths in Hk as [Hk| ->].
    + apply list_elem_of_lookup in Hk as [i Hi].
      destruct (Forall2_lookup_l _ _ _ _ _ Hms Hi) as (m & _ & Hm). congruence.
    + exists 1700. split; [by apply elem_of_sorted_wavelengths; right|].
      split; [done|]. unfold getitem. by rewrite Hnone.
  - destruct (decide (Forall (λ k, is_Some (mapw !! k))
                             (all_but_last sorted_wavelengths))) as [Hall|Hex].
    + destruct (list_comp_getitem_total mapw (all_but_last sorted_wavelengths))
        as [ms Hms']; [|congruence].
      by apply Forall_forall.
    + apply not_Forall_Exists, Exists_exists in Hex as (k0 & Hk0 & Hno); [|apply _].
      destruct (list_comp_getitem_KeyError mapw _ k0 Hk0) as (k1 & Hk1 & ? & ?).
      { by apply eq_None_not_Some. }
      exists k1. split; [apply elem_of_sorted_wavelengths; by left|].
      split; [done|]. congruence.
Qed.

(** The cropped dictionary, entry by entry, when every map of the ordering
    list is stored under its own wavelength. *)
Lemma crop_lookup mapw maps :
  (∀ k m, k ∈ sorted_wavelengths → mapw !! k = Some m → wavelength m = k) →
  crop mapw = Ok maps →
  (∀ k, k ∈ all_but_last sorted_wavelengths →
     ∃ m, mapw !! k = Some m ∧ maps !! k = Some (small_box m)) ∧
  (∃ m, mapw !! 1700 = Some m ∧ maps !! 1700 = Some (large_box m)) ∧
  (∀ k, k ∉ sorted_wavelengths → maps !! k = None).
Proof.
  intros Hkeyed (ms & m1700 & Hms & H1700 & ->)%crop_Ok_inv.
  assert (wavelength <$> ms = all_but_last sorted_wavelengths) as Hwl.
  { eapply Forall2_fmap_eq; [done|]. intros k m Hk Hm.
    apply Hkeyed; [|done]. apply elem_of_sorted_wavelengths. by left. }
  assert (((λ m, (wavelength m, small_box m)) <$> ms).*1
          = all_but_last sorted_wavelengths) as Hfst.
  { by rewrite <- list_fmap_compose. }
  split; [|split].
  - intros k Hk. pose proof (all_but_last_not_1700 k Hk) as Hne.
    apply list_elem_of_lookup in Hk as [i Hi].
    destruct (Forall2_lookup_l _ _ _ _ _ Hms Hi) as (m & Hmi & Hm).
    exists m. split; [done|]. rewrite lookup_insert_ne by done.
    apply dict_of_list_lookup_NoDup.
    + rewrite Hfst, all_but_last_sorted_wavelengths.
      by apply (bool_decide_unpack _).
    + apply list_elem_of_fmap. exists m. split.
      * f_equal. symmetry. apply Hkeyed; [|done].
        apply elem_of_sorted_wavelengths. left. by eapply list_elem_of_lookup_2.
      * by eapply list_elem_of_lookup_2.
  - exists m1700. by rewrite lookup_insert_eq.
  - intros k Hk. rewrite elem_of_sorted_wavelengths in Hk.
    rewrite lookup_insert_ne by naive_solver.
    apply dict_of_list_lookup_None. rewrite Hfst. naive_solver.
Qed.

Lemma build_mapw_lookup_hmi (aia_maps : list Map) (hmi : Map) :
  build_mapw aia_maps hmi !! 6173 = Some (rotate 3 hmi).
Proof. unfold build_mapw. by rewrite lookup_insert_eq. Qed.

Lemma build_mapw_lookup_ne (aia_maps : list Map) (hmi : Map) k :
  k ≠ 6173 →
  build_mapw aia_maps hmi !! k
  = dict_of_list ((λ m, (wavelength m, rotate 3 m)) <$> aia_maps) !! k.
Proof. intros Hk. unfold build_mapw. by rewrite lookup_insert_ne. Qed.

End Maps.

(** ** The axes dictionary *)

Lemma script_axes_lookup k ax :
  script_axes !! k = Some ax ↔ sorted_wavelengths !! ax = Some k.
Proof.
  split.
  - intros Hin%dict_of_list_lookup_Some.
    apply list_elem_of_lookup in Hin as [i Hi].
    do 9 (destruct i as [|i]; [by injection Hi as <- <-|]). done.
  - intros Hk. do 9 (destruct ax as [|ax]; [by injection Hk as <-|]). done.
Qed.

Lemma script_axes_is_Some k : k ∈ sorted_wavelengths ↔ is_Some (script_axes !! k).
Proof.
  rewrite list_elem_of_lookup. unfold is_Some.
  by setoid_rewrite script_axes_lookup.
Qed.

Lemma script_axes_inj k1 k2 ax :
  script_axes !! k1 = Some ax → script_axes !! k2 = Some ax → k1 = k2.
Proof. rewrite !script_axes_lookup. congruence. Qed.

Section Render.
Context {Map : Type} `{SunpyMap Map}.
Implicit Types (m : Map) (maps : gmap Z Map) (k key : Z) (fig : Figure).

Lemma add_axes_each_eq (rs : list Rect) fig :
  add_axes_each rs fig
  = (seq (length (fig_axes fig)) (length rs),
     mkFigure (figsize fig) (fig_axes fig ++ rs) (fig_calls fig)).
Proof.
  revert fig. induction rs as [|r rs IH]; intros [size axs calls]; simpl.
  - by rewrite app_nil_r.
  - rewrite IH. simpl. rewrite length_app, <- app_assoc. simpl.
    by rewrite Nat.add_1_r.
Qed.

Lemma call_each_eq (c : Call) (axs : list nat) fig :
  call_each c axs fig
  = mkFigure (figsize fig) (fig_axes fig)
             (fig_calls fig ++ ((λ ax, (ax, c)) <$> axs)).
Proof.
  unfold call_each. revert fig.
  induction axs as [|ax axs IH]; intros [size rs calls]; simpl.
  - by rewrite app_nil_r.
  - rewrite IH. simpl. by rewrite <- app_assoc.
Qed.

Lemma mapwplot_eq axes maps key fig :
  is_Some (axes !! key) → is_Some (maps !! key) →
  mapwplot axes maps key fig
  = Ok (mkFigure (figsize fig) (fig_axes fig)
                 (fig_calls fig ++ plot_calls axes maps key)).
Proof.
  intros [ax Hax] [m Hm]. unfold mapwplot, plot_calls, plot_cmds, getitem.
  rewrite Hax, Hm. simpl. unfold imshow_of, call.
  case_bool_decide; simpl; [by rewrite <- app_assoc | done].
Qed.

Lemma py2_map_mapwplot axes maps (ks : list Z) fig :
  (∀ k, k ∈ ks → is_Some (axes !! k) ∧ is_Some (maps !! k)) →
  py2_map (mapwplot axes maps) ks fig
  = Ok (mkFigure (figsize fig) (fig_axes fig)
                 (fig_calls fig ++ concat (plot_calls axes maps <$> ks))).
Proof.
  revert fig. induction ks as [|k ks IH]; intros fig Hks; simpl.
  - rewrite app_nil_r. by destruct fig.
  - destruct (Hks k) as [Hax Hm]; [left|].
    rewrite mapwplot_eq by done. unfold mbind, result_bind.
    rewrite IH by (intros; apply Hks; by right). simpl.
    by rewrite <- app_assoc.
Qed.

(** The rendering stage succeeds when every key of the cropped dictionary
    has an axes, and then produces [final_figure]. *)
Lemma render_ok maps :
  (∀ k, is_Some (maps !! k) → k ∈ sorted_wavelengths) →
  render maps = Ok (final_figure maps).
Proof.
  intros Hkeys. unfold render. rewrite !add_axes_each_eq.
  change (build_axes _ _) with (Ok script_axes : result _).
  unfold mbind at 1. unfold result_bind at 1.
  rewrite py2_map_mapwplot.
  2:{ intros k Hk%elem_of_keys. split; [|done]. by apply script_axes_is_Some, Hkeys. }
  change (getitem script_axes 6173) with (Ok 4%nat : result _).
  change (getitem script_axes (last_item sorted_wavelengths))
    with (Ok 8%nat : result _).
  unfold mbind, result_bind. rewrite !call_each_eq. unfold call, final_figure.
  f_equal. simpl. unfold finishing_calls.
  by rewrite <- !app_assoc.
Qed.

Lemma on_axes_fmap (ax ax' : nat) (cs : list Call) :
  omap (on_axes ax) ((λ c, (ax', c)) <$> cs) = if decide (ax' = ax) then cs else [].
Proof.
  induction cs as [|c cs IH]; csimpl; [by case_decide|].
  rewrite IH. unfold on_axes. simpl. by case_decide.
Qed.

Lemma on_axes_plot_calls axes maps (ks : list Z) (ax : nat) :
  omap (on_axes ax) (concat (plot_calls axes maps <$> ks))
  = concat ((λ k, if decide (axes !! k = Some ax)
                  then plot_cmds maps k else []) <$> ks).
Proof.
  induction ks as [|k ks IH]; csimpl; [done|].
  rewrite omap_app, IH. f_equal. unfold plot_calls.
  destruct (axes !! k) as [ax'|]; [|by case_decide].
  rewrite on_axes_fmap. repeat case_decide; congruence.
Qed.

Lemma concat_select {A} (P : Z → Prop) `{∀ k, Decision (P k)}
    (f : Z → list A) (ks : list Z) (k0 : Z) :
  NoDup ks → (∀ k, k ∈ ks → P k → k = k0) → (k0 ∈ ks → P k0) →
  concat ((λ k, if decide (P k) then f k else []) <$> ks)
  = if decide (k0 ∈ ks) then f k0 else [].
Proof.
  induction 1 as [|k ks Hk Hnd IH]; intros Honly Hk0.
  - by rewrite decide_False by set_solver.
  - rewrite fmap_cons, concat_cons.
    destruct (decide (P k)) as [HP|HP].
    + assert (k = k0) as ->.
      { apply Honly; [apply list_elem_of_here | done]. }
      rewrite IH.
      * rewrite (decide_False (P := k0 ∈ ks)) by done.
        rewrite decide_True by apply list_elem_of_here. by rewrite app_nil_r.
      * intros k Hin. apply Honly. by apply list_elem_of_further.
      * done.
    + rewrite IH.
      * destruct (decide (k0 ∈ ks)) as [Hin|Hin].
        -- by rewrite decide_True by by apply list_elem_of_further.
        -- rewrite decide_False; [done|].
           intros [->|?]%elem_of_cons; [|done].
           apply HP, Hk0, list_elem_of_here.
      * intros k' Hin. apply Honly. by apply list_elem_of_further.
      * intros Hin. by apply Hk0, list_elem_of_further.
Qed.

Lemma on_axes_finishing_calls (ax : nat) :
  (ax < 9)%nat → omap (on_axes ax) finishing_calls = finishing_cmds ax.
Proof.
  intros Hax. do 9 (destruct ax as [|ax]; [reflexivity|]). lia.
Qed.

Lemma plot_cmds_None maps k : maps !! k = None → plot_cmds maps k = [].
Proof. unfold plot_cmds. by intros ->. Qed.

(** Everything that is called on the axes of a wavelength of the ordering
    list: the calls of [mapwplot] for that wavelength if it is a key of the
    cropped dictionary, then the finishing calls. *)
Lemma calls_on_final_figure maps k (ax : nat) :
  script_axes !! k = Some ax →
  calls_on ax (final_figure maps) = plot_cmds maps k ++ finishing_cmds ax.
Proof.
  intros Hax. unfold calls_on, final_figure. simpl.
  change (λ c : nat * Call, if decide (c.1 = ax) then Some c.2 else None)
    with (on_axes ax).
  rewrite omap_app, on_axes_plot_calls, on_axes_finishing_calls.
  2:{ apply script_axes_lookup, lookup_lt_Some in Hax. exact Hax. }
  f_equal. rewrite (concat_select _ _ _ k).
  - case_decide as Hin; [done|]. rewrite plot_cmds_None; [done|].
    rewrite elem_of_keys in Hin. by apply eq_None_not_Some.
  - apply NoDup_keys.
  - intros k' _ Hk'. by eapply script_axes_inj.
  - done.
Qed.

Lemma fig_axes_final_figure maps :
  fig_axes (final_figure maps) = left_rects ++ right_rects ++ centre_rects.
Proof. reflexivity. Qed.

Lemma images_on_final_figure maps k (ax : nat) :
  script_axes !! k = Some ax →
  images_on ax (final_figure maps)
  = match maps !! k with Some m => [imshow_of m] | None => [] end.
Proof.
  intros Hax. unfold images_on. rewrite (calls_on_final_figure maps k ax Hax).
  rewrite List.filter_app. unfold plot_cmds, finishing_cmds.
  destruct (maps !! k) as [m|]; repeat case_decide; by try case_bool_decide.
Qed.

Lemma texts_on_final_figure maps k (ax : nat) :
  script_axes !! k = Some ax →
  texts_on ax (final_figure maps)
  = List.filter is_text (plot_cmds maps k) ++
    (if decide (k = 6173)
     then [Text (bx + label_padx) (by_ + label_padx)
                (Literal "LOS Magnetic Field") "w" 16]
     else if decide (k = last_item sorted_wavelengths)
     then [Text (-950) (-990) (LatexNm 1700) "w" 16]
     else []).
Proof.
  intros Hax. unfold texts_on. rewrite (calls_on_final_figure maps k ax Hax).
  rewrite List.filter_app. f_equal. unfold finishing_cmds.
  assert (script_axes !! 6173 = Some 4%nat) as H4 by reflexivity.
  assert (script_axes !! last_item sorted_wavelengths = Some 8%nat) as H8
    by reflexivity.
  destruct (decide (ax = 4%nat)) as [->|Hne4].
  { rewrite (script_axes_inj _ _ _ Hax H4). by rewrite decide_True. }
  rewrite (decide_False (P := k = 6173)) by (intros ->; congruence).
  destruct (decide (ax = 8%nat)) as [->|Hne8].
  { rewrite (script_axes_inj _ _ _ Hax H8). by rewrite decide_True. }
  by rewrite decide_False by (intros ->; congruence).
Qed.

Lemma patches_on_final_figure maps k (ax : nat) :
  script_axes !! k = Some ax →
  patches_on ax (final_figure maps)
  = if decide (ax = 8%nat)
    then [AddPatch (Rectangle (bx, by_) w h "none")] else [].
Proof.
  intros Hax. unfold patches_on. rewrite (calls_on_final_figure maps k ax Hax).
  rewrite List.filter_app. unfold plot_cmds, finishing_cmds.
  destruct (maps !! k) as [m|]; repeat case_decide; simplify_eq;
    by try case_bool_decide.
Qed.

(** [mapwplot] issues exactly one [imshow] per run. *)
Lemma imshow_count_plot_calls axes maps (ks : list Z) :
  (∀ k, k ∈ ks → is_Some (axes !! k) ∧ is_Some (maps !! k)) →
  length (List.filter (λ c : nat * Call, is_imshow c.2)
                      (concat (plot_calls axes maps <$> ks)))
  = length ks.
Proof.
  induction ks as [|k ks IH]; intros Hks; [done|].
  rewrite fmap_cons, concat_cons, List.filter_app, length_app, IH.
  2:{ intros k' Hk'. apply Hks. by right. }
  destruct (Hks k) as [[ax Hax] [m Hm]]; [left|].
  unfold plot_calls, plot_cmds. rewrite Hax, Hm.
  by case_bool_decide.
Qed.

Lemma imshow_count_final_figure maps :
  keys maps ⊆ sorted_wavelengths →
  length (List.filter (λ c : nat * Call, is_imshow c.2)
                      (fig_calls (final_figure maps)))
  = length (keys maps).
Proof.
  intros Hkeys. unfold final_figure. simpl.
  rewrite List.filter_app, length_app, imshow_count_plot_calls.
  - change (List.filter _ finishing_calls) with (@nil (nat * Call)).
    simpl. lia.
  - intros k Hk. split; [by apply script_axes_is_Some, Hkeys|].
    by apply elem_of_keys.
Qed.

Lemma render_ok_keys maps :
  keys maps ⊆ sorted_wavelengths → render maps = Ok (final_figure maps).
Proof. intros Hkeys. apply render_ok. intros k Hk. by apply Hkeys, elem_of_keys. Qed.

End Render.

(** ** The rendering stage *)

Section Rendering_claims.
Context {Map : Type} `{SunpyMap Map}.
Implicit Types (m : Map) (maps : gmap Z Map) (key : Z) (fig : Figure).

(** C2: when every key of the cropped dictionary has an axes, the rendering
    stage completes, it issues as many [imshow] calls as the dictionary has
    keys, and the axes assigned to a key receives exactly one image: the
    data of that key's cropped map, drawn with the colour map, the
    normalisation and the extent of that same map. *)
Theorem mapwplot_draws_every_key maps :
  keys maps ⊆ sorted_wavelengths →
  ∃ fig, render maps = Ok fig ∧
    length (List.filter (λ c : nat * Call, is_imshow c.2) (fig_calls fig))
    = length (keys maps) ∧
    ∀ key, key ∈ keys maps →
      ∃ (ax : nat) m, script_axes !! key = Some ax ∧ maps !! key = Some m ∧
        images_on ax fig
        = [Imshow (data m) (cmap m) (mpl_color_normalizer m)
                  (xrange m ++ yrange m)].
Proof.
  intros Hkeys. exists (final_figure maps).
  split; [by apply render_ok_keys|].
  split; [by apply imshow_count_final_figure|].
  intros key Hkey.
  destruct (proj1 (script_axes_is_Some key) (Hkeys _ Hkey)) as [ax Hax].
  destruct (proj1 (elem_of_keys maps key) Hkey) as [m Hm].
  exists ax, m. split; [done|]. split; [done|].
  by rewrite (images_on_final_figure maps key ax Hax), Hm.
Qed.

(** C6: in a completed rendering, the axes of every key of the cropped
    dictionary other than 6173.0 and the last entry of the ordering list
    carries exactly one text, the wavelength label at
    [(bx+label_padx, by+label_pady)]; the axes of 6173.0 carries only the
    text "LOS Magnetic Field" and the axes of the last entry only the 1700
    label at [(-950, -990)], whether or not these two are keys of the
    dictionary; neither carries a text at the position of the generic
    label. *)
Theorem labels_generic_and_custom maps :
  keys maps ⊆ sorted_wavelengths →
  ∃ fig (ax_hmi ax_main : nat),
    render maps = Ok fig ∧
    script_axes !! 6173 = Some ax_hmi ∧
    script_axes !! last_item sorted_wavelengths = Some ax_main ∧
    (∀ key (ax : nat),
       key ∈ keys maps → key ≠ 6173 → key ≠ last_item sorted_wavelengths →
       script_axes !! key = Some ax →
       texts_on ax fig
       = [Text (bx + label_padx) (by_ + label_pady) (LatexNm key) "w" 16]) ∧
    texts_on ax_hmi fig
    = [Text (bx + label_padx) (by_ + label_padx)
            (Literal "LOS Magnetic Field") "w" 16] ∧
    texts_on ax_main fig = [Text (-950) (-990) (LatexNm 1700) "w" 16] ∧
    (∀ s color size,
       let generic := Text (bx + label_padx) (by_ + label_pady) s color size in
       (generic ∉ calls_on ax_hmi fig) ∧ (generic ∉ calls_on ax_main fig)).
Proof.
  intros Hkeys. exists (final_figure maps), 4%nat, 8%nat.
  split; [by apply render_ok_keys|].
  split; [reflexivity|]. split; [reflexivity|].
  assert (script_axes !! 6173 = Some 4%nat) as H4 by reflexivity.
  assert (script_axes !! 1700 = Some 8%nat) as H8 by reflexivity.
  split; [|split; [|split]].
  - intros key ax Hkey Hne1 Hne2 Hax.
    rewrite (texts_on_final_figure maps key ax Hax).
    rewrite !decide_False by done. rewrite app_nil_r.
    destruct (proj1 (elem_of_keys maps key) Hkey) as [m Hm].
    unfold plot_cmds. rewrite Hm, bool_decide_true; [done|].
    rewrite !not_elem_of_cons. split_and!; [done..|apply not_elem_of_nil].
  - rewrite (texts_on_final_figure maps 6173 4 H4).
    unfold plot_cmds. by destruct (maps !! 6173).
  - rewrite (texts_on_final_figure maps 1700 8 H8).
    unfold plot_cmds. by destruct (maps !! 1700).
  - intros s color size.
    rewrite (calls_on_final_figure maps 6173 4 H4).
    rewrite (calls_on_final_figure maps 1700 8 H8).
    unfold plot_cmds.
    destruct (maps !! 6173), (maps !! 1700); split;
      intros Hin%list_elem_of_In; vm_compute in Hin;
      intuition discriminate.
Qed.

(** C8: in a completed rendering, the axes assigned to the last wavelength
    of the ordering list is the centre axes, and the one patch added to it
    is an unfilled rectangle with lower-left corner (-300, -150), width 600
    and height 300, whose extent is the pair of ranges the edge images are
    cropped to; no other axes of the ordering list receives a patch. *)
Theorem crop_rectangle_on_main_image maps :
  keys maps ⊆ sorted_wavelengths →
  ∃ fig (ax : nat) x0 y0 width height,
    render maps = Ok fig ∧
    script_axes !! last_item sorted_wavelengths = Some ax ∧
    fig_axes fig !! ax = centre_rects !! 0%nat ∧
    patches_on ax fig = [AddPatch (Rectangle (x0, y0) width height "none")] ∧
    (x0, y0, width, height) = (-300, -150, 600, 300) ∧
    (∀ m, small_box m = submap m (x0, x0 + width) (y0, y0 + height)) ∧
    (∀ key (ax' : nat),
       script_axes !! key = Some ax' → ax' ≠ ax → patches_on ax' fig = []).
Proof.
  intros Hkeys. exists (final_figure maps), 8%nat, bx, by_, w, h.
  assert (script_axes !! 1700 = Some 8%nat) as H8 by reflexivity.
  split; [by apply render_ok_keys|].
  split; [reflexivity|]. split; [reflexivity|].
  split; [by rewrite (patches_on_final_figure maps 1700 8 H8)|].
  split; [reflexivity|]. split; [reflexivity|].
  intros key ax' Hax Hne. rewrite (patches_on_final_figure maps key ax' Hax).
  by rewrite decide_False.
Qed.

End Rendering_claims.

(** ** Map construction, cropping and the whole run *)

Section Pipeline_claims.
Context {Map : Type} `{SunpyMap Map}.
Implicit Types (m hmi : Map) (aia_maps : list Map) (mapw maps : gmap Z Map) (k : Z).

(** C10: [mapw] is a dictionary, so a wavelength has at most one map; of the
    loaded maps that share a wavelength the one enumerated last is the one
    stored (rotated), a wavelength no loaded map has is absent, and the key
    6173.0 always holds the rotated HMI map, whatever was stored under it
    before. *)
Theorem mapw_keeps_last_map_per_wavelength aia_maps hmi :
  let mapw := build_mapw aia_maps hmi in
  (∀ k m1 m2, mapw !! k = Some m1 → mapw !! k = Some m2 → m1 = m2) ∧
  (∀ pre m post,
     aia_maps = pre ++ m :: post →
     wavelength m ≠ 6173 →
     (∀ m', m' ∈ post → wavelength m' ≠ wavelength m) →
     mapw !! wavelength m = Some (rotate 3 m)) ∧
  (∀ k, k ≠ 6173 → (∀ m, m ∈ aia_maps → wavelength m ≠ k) → mapw !! k = None) ∧
  mapw !! 6173 = Some (rotate 3 hmi).
Proof.
  intros mapw. subst mapw. split_and!.
  - congruence.
  - intros pre m post -> Hne Hpost.
    rewrite build_mapw_lookup_ne by done. rewrite fmap_app, fmap_cons.
    apply dict_of_list_lookup_last.
    rewrite <- list_fmap_compose.
    intros (m' & Hwl & Hin)%list_elem_of_fmap. simpl in Hwl.
    by apply (Hpost m').
  - intros k Hne Hnone. rewrite build_mapw_lookup_ne by done.
    apply dict_of_list_lookup_None. rewrite <- list_fmap_compose.
    intros (m' & Hwl & Hin)%list_elem_of_fmap. simpl in Hwl.
    by apply (Hnone m').
  - apply build_mapw_lookup_hmi.
Qed.

(** C4: if a wavelength of the ordering list has no entry in [mapw], the
    cropping stage raises [KeyError] for a wavelength of the ordering list
    that has no entry (the first one the two subscripts of lines 65-66
    meet), and the run of the script ends with that error: no figure is
    produced. *)
Theorem missing_wavelength_raises_KeyError aia_maps hmi k :
  k ∈ sorted_wavelengths →
  build_mapw aia_maps hmi !! k = None →
  ∃ k', k' ∈ sorted_wavelengths ∧
        build_mapw aia_maps hmi !! k' = None ∧
        crop (build_mapw aia_maps hmi) = KeyError k' ∧
        script aia_maps hmi = KeyError k'.
Proof.
  intros Hk Hnone.
  destruct (crop_KeyError _ k Hk Hnone) as (k' & Hk' & Hnone' & Hcrop).
  exists k'. split_and!; [done..|]. unfold script. by rewrite Hcrop.
Qed.

(** C5: when cropping succeeds on a dictionary that stores the maps of the
    ordering list under their own wavelengths, every wavelength of the
    ordering list but the last has as cropped map the submap of its map
    over x in [-300, 300] and y in [-150, 150], which are the ranges
    [(bx, bx+w)] and [(by, by+h)]; the cropped map of 1700 is the submap
    over x and y in [-1000, 1000]; and 1700 is none of the other
    wavelengths. *)
Theorem crop_ranges mapw maps :
  (∀ k m, k ∈ sorted_wavelengths → mapw !! k = Some m → wavelength m = k) →
  crop mapw = Ok maps →
  (∀ k, k ∈ all_but_last sorted_wavelengths →
     k ≠ 1700 ∧
     ∃ m, mapw !! k = Some m ∧
          maps !! k = Some (submap m (-300, 300) (-150, 150))) ∧
  (∃ m, mapw !! 1700 = Some m ∧
        maps !! 1700 = Some (submap m (-1000, 1000) (-1000, 1000))) ∧
  (bx, bx + w) = (-300, 300) ∧ (by_, by_ + h) = (-150, 150) ∧
  last_item sorted_wavelengths = 1700.
Proof.
  intros Hkeyed Hcrop.
  destruct (crop_lookup mapw maps Hkeyed Hcrop) as (Hsmall & Hlarge & _).
  split_and!; [|done..].
  intros k Hk. split; [by apply all_but_last_not_1700|]. by apply Hsmall.
Qed.

(** Every map in [mapw] is stored under its own wavelength when rotating
    keeps the wavelength and the HMI file is tagged 6173. *)
Lemma build_mapw_keyed aia_maps hmi k m :
  (∀ m, wavelength (rotate 3 m) = wavelength m) →
  wavelength hmi = 6173 →
  build_mapw aia_maps hmi !! k = Some m → wavelength m = k.
Proof.
  intros Hrot Hhmi. destruct (decide (k = 6173)) as [->|Hne].
  - rewrite build_mapw_lookup_hmi. intros [= <-]. by rewrite Hrot.
  - rewrite build_mapw_lookup_ne by done.
    intros (m0 & [= -> ->] & _)%dict_of_list_lookup_Some%list_elem_of_fmap.
    by rewrite Hrot.
Qed.

Lemma build_mapw_is_Some aia_maps hmi k :
  (k = 6173 ∨ ∃ m, m ∈ aia_maps ∧ wavelength m = k) →
  is_Some (build_mapw aia_maps hmi !! k).
Proof.
  destruct (decide (k = 6173)) as [->|Hne].
  - intros _. rewrite build_mapw_lookup_hmi. by eexists.
  - intros [?|(m & Hin & <-)]; [done|].
    rewrite build_mapw_lookup_ne by done.
    apply not_eq_None_Some. rewrite dict_of_list_lookup_None.
    intros Hno. apply Hno. rewrite <- list_fmap_compose.
    apply list_elem_of_fmap. by exists m.
Qed.

Lemma crop_keys mapw maps :
  (∀ k m, k ∈ sorted_wavelengths → mapw !! k = Some m → wavelength m = k) →
  crop mapw = Ok maps →
  keys maps ⊆ sorted_wavelengths ∧ length (keys maps) = 9%nat.
Proof.
  intros Hkeyed Hcrop.
  destruct (crop_lookup mapw maps Hkeyed Hcrop) as (Hsmall & Hlarge & Hout).
  assert (∀ k, k ∈ keys maps ↔ k ∈ sorted_wavelengths) as Hiff.
  { intros k. rewrite elem_of_keys. split.
    - intros Hk. destruct (decide (k ∈ sorted_wavelengths)) as [|Hno]; [done|].
      apply Hout in Hno. rewrite Hno in Hk. by destruct Hk.
    - intros [Hk| ->]%elem_of_sorted_wavelengths.
      + destruct (Hsmall k Hk) as (m & _ & ->). by eexists.
      + destruct Hlarge as (m & _ & ->). by eexists. }
  split; [intros k; apply Hiff|].
  change 9%nat with (length sorted_wavelengths). apply Permutation_length.
  apply NoDup_Permutation;
    [apply NoDup_keys | apply NoDup_sorted_wavelengths | done].
Qed.

Lemma NoDup_rects : NoDup (left_rects ++ right_rects ++ centre_rects).
Proof.
  vm_compute.
  repeat (apply NoDup_cons; split;
          [rewrite ?not_elem_of_cons; split_and?;
           try discriminate; apply not_elem_of_nil|]).
  apply NoDup_nil_2.
Qed.

(** C1 (as the code has it): for a run with a file of each of the nine
    wavelengths, the script completes with a figure of nine distinct axes
    and nine images, one per axes.  The centre axes shows the 1700 map
    cropped to [-1000, 1000] in x and y; the HMI map, cropped to the small
    box, is shown on the lowest axes of the right edge; every wavelength
    other than 1700 is shown on an axes of the left or right edge. *)
Theorem centre_shows_1700_and_hmi_an_edge aia_maps hmi :
  (∀ m, wavelength (rotate 3 m) = wavelength m) →
  wavelength hmi = 6173 →
  (∀ k, k ∈ sorted_wavelengths → k ≠ 6173 →
        ∃ m, m ∈ aia_maps ∧ wavelength m = k) →
  ∃ fig m1700,
    script aia_maps hmi = Ok fig ∧
    fig_axes fig = left_rects ++ right_rects ++ centre_rects ∧
    length (fig_axes fig) = 9%nat ∧ NoDup (fig_axes fig) ∧
    length (List.filter (λ c : nat * Call, is_imshow c.2) (fig_calls fig))
    = 9%nat ∧
    build_mapw aia_maps hmi !! 1700 = Some m1700 ∧
    fig_axes fig !! 8%nat = centre_rects !! 0%nat ∧
    images_on 8 fig = [imshow_of (large_box m1700)] ∧
    fig_axes fig !! 4%nat = right_rects !! 0%nat ∧
    images_on 4 fig = [imshow_of (small_box (rotate 3 hmi))] ∧
    (∀ (ax : nat) k,
       sorted_wavelengths !! ax = Some k → k ≠ 1700 →
       ∃ m, build_mapw aia_maps hmi !! k = Some m ∧
            fig_axes fig !! ax = (left_rects ++ right_rects) !! ax ∧
            images_on ax fig = [imshow_of (small_box m)]).
Proof.
  intros Hrot Hhmi Hfiles. set (mapw := build_mapw aia_maps hmi).
  assert (∀ k m, k ∈ sorted_wavelengths → mapw !! k = Some m → wavelength m = k)
    as Hkeyed.
  { intros k m _. by apply build_mapw_keyed. }
  destruct (crop_total mapw) as [maps Hcrop].
  { intros k Hk. apply build_mapw_is_Some.
    destruct (decide (k = 6173)); [by left | right; by apply Hfiles]. }
  destruct (crop_lookup mapw maps Hkeyed Hcrop) as (Hsmall & Hlarge & _).
  destruct (crop_keys mapw maps Hkeyed Hcrop) as [Hkeys Hlen].
  destruct Hlarge as (m1700 & Hm1700 & Hmaps1700).
  exists (final_figure maps), m1700.
  split. { unfold script. fold mapw. rewrite Hcrop. by apply render_ok_keys. }
  split; [done|]. split; [done|]. split; [apply NoDup_rects|].
  split. { by rewrite imshow_count_final_figure. }
  split; [done|]. split; [done|].
  split.
  { rewrite (images_on_final_figure maps 1700 8) by reflexivity.
    by rewrite Hmaps1700. }
  split; [done|].
  split.
  { rewrite (images_on_final_figure maps 6173 4) by reflexivity.
    destruct (Hsmall 6173) as (m & Hm & ->).
    { by apply (bool_decide_unpack _). }
    unfold mapw in Hm. rewrite build_mapw_lookup_hmi in Hm. by injection Hm as <-. }
  intros ax k Hax Hne.
  assert (k ∈ all_but_last sorted_wavelengths) as Hk.
  { apply list_elem_of_lookup_2 in Hax as Hin.
    apply elem_of_sorted_wavelengths in Hin as [|]; done. }
  destruct (Hsmall k Hk) as (m & Hm & Hmaps).
  exists m. split; [done|]. split.
  - rewrite fig_axes_final_figure.
    do 9 (destruct ax as [|ax]; [done || by injection Hax as <-|]). done.
  - rewrite (images_on_final_figure maps k ax) by by apply script_axes_lookup.
    by rewrite Hmaps.
Qed.

End Pipeline_claims.

(** ** The region assignment *)

Lemma fst_zip_take {A B} (l : list A) (k : list B) :
  (zip l k).*1 = take (length k) l.
Proof.
  revert k. induction l as [|x l IH]; intros [|y k]; csimpl; f_equal; auto.
Qed.

Lemma build_axes_script : build_axes sorted_wavelengths (seq 0 9) = Ok script_axes.
Proof. reflexivity. Qed.

(** C3 (as the code has it): building the assignment never fails.  The
    ordering list is paired with the regions position by position: a
    wavelength at a position that has a region is assigned that region, and
    a wavelength at a position beyond the last region is assigned none, so
    the wavelengths with a region are those among the first [length
    regions] entries.  The shipped ordering list and the list of regions
    both have nine entries. *)
Theorem build_axes_pairs_by_position (order : list Z) (regions : list nat) :
  NoDup order →
  ∃ axes,
    build_axes order regions = Ok axes ∧
    (∀ (i : nat) wave, order !! i = Some wave → axes !! wave = regions !! i) ∧
    (∀ wave, is_Some (axes !! wave) ↔ wave ∈ take (length regions) order) ∧
    length sorted_wavelengths = 9%nat ∧
    length (left_rects ++ right_rects ++ centre_rects) = 9%nat.
Proof.
  intros Hnd. eexists. split; [reflexivity|].
  assert (∀ wave, is_Some (dict_of_list (zip order regions) !! wave)
                  ↔ wave ∈ take (length regions) order) as Hdom.
  { intros wave. rewrite <- fst_zip_take, <- not_eq_None_Some.
    rewrite dict_of_list_lookup_None.
    split; [apply dec_stable | by intros ? ?]. }
  split_and!; [|done..].
  intros i wave Hi. destruct (regions !! i) as [ax|] eqn:Hax.
  - apply dict_of_list_lookup_NoDup.
    + rewrite fst_zip_take. eapply sublist_NoDup; [done | apply sublist_take].
    + apply list_elem_of_lookup. exists i.
      rewrite lookup_zip_with, Hi. simpl. by rewrite Hax.
  - apply eq_None_not_Some. rewrite Hdom.
    intros (j & Hj)%list_elem_of_lookup.
    apply lookup_take_Some in Hj as [Hj Hlt].
    apply lookup_ge_None in Hax.
    pose proof (NoDup_lookup _ _ _ _ Hnd Hi Hj). lia.
Qed.

(** ** The layout *)

Local Open Scope Q_scope.

(** The region at a position of the creation order, with its coordinates
    evaluated. *)
Ltac region_at H :=
  vm_compute in H; injection H as <-.

(** Case analysis on the position of a region. *)
Ltac each_region i H :=
  first [ discriminate H
        | destruct i as [|i]; [region_at H | each_region i H] ].

Lemma regions_interiors_disjoint (i j : nat) (r1 r2 : Rect) (x y : Q) :
  i ≠ j →
  (left_rects ++ right_rects ++ centre_rects) !! i = Some r1 →
  (left_rects ++ right_rects ++ centre_rects) !! j = Some r2 →
  ¬ (interior r1 x y ∧ interior r2 x y).
Proof.
  intros Hij H1 H2 [Hin1 Hin2].
  each_region i H1; each_region j H2; try (by destruct Hij);
    unfold interior in Hin1, Hin2; simpl in Hin1, Hin2; lra.
Qed.

(** The point at hand lies in the region at position [i]. *)
Ltac in_region i Hat :=
  eapply (Hat i); [vm_compute; reflexivity | unfold covers; simpl; lra].

Lemma regions_cover_unit_square (x y : Q) :
  (0 <= x ∧ x <= 1 ∧ 0 <= y ∧ y <= 1) ↔
  ∃ r, r ∈ left_rects ++ right_rects ++ centre_rects ∧ covers r x y.
Proof.
  split.
  - intros (Hx0 & Hx1 & Hy0 & Hy1).
    assert (∀ (i : nat) r,
              (left_rects ++ right_rects ++ centre_rects) !! i = Some r →
              covers r x y →
              ∃ r, r ∈ left_rects ++ right_rects ++ centre_rects ∧ covers r x y)
      as Hat.
    { intros i r Hi Hr. exists r. split; [|done]. by eapply list_elem_of_lookup_2. }
    destruct (Qlt_le_dec x (1 # 4)) as [Hl|Hl];
      [|destruct (Qlt_le_dec (3 # 4) x) as [Hr|Hr]].
    + destruct (Qlt_le_dec y (1 # 4)); [|destruct (Qlt_le_dec y (1 # 2));
        [|destruct (Qlt_le_dec y (3 # 4))]].
      * in_region 0%nat Hat.
      * in_region 1%nat Hat.
      * in_region 2%nat Hat.
      * in_region 3%nat Hat.
    + destruct (Qlt_le_dec y (1 # 4)); [|destruct (Qlt_le_dec y (1 # 2));
        [|destruct (Qlt_le_dec y (3 # 4))]].
      * in_region 4%nat Hat.
      * in_region 5%nat Hat.
      * in_region 6%nat Hat.
      * in_region 7%nat Hat.
    + in_region 8%nat Hat.
  - intros (r & (i & Hi)%list_elem_of_lookup & Hr).
    each_region i Hi; unfold covers in Hr; simpl in Hr; lra.
Qed.

(** C9: the nine regions are the four left-edge rectangles
    [0, 1/4] x [i/4, (i+1)/4], the four right-edge rectangles
    [3/4, 1] x [i/4, (i+1)/4] (i = 0..3 in creation order, bottom to top)
    and the centre rectangle [1/4, 3/4] x [0, 1]; the interiors of two
    different regions share no point, and the closed regions together
    cover exactly the unit square. *)
Theorem regions_tile_the_figure :
  Forall2 (λ i r, r_left r == 0 ∧ r_left r + r_width r == 1 # 4 ∧
                  r_bottom r == inject_Z i * (1 # 4) ∧
                  r_bottom r + r_height r == (inject_Z i + 1) * (1 # 4))
          (range 4) left_rects ∧
  Forall2 (λ i r, r_left r == 3 # 4 ∧ r_left r + r_width r == 1 ∧
                  r_bottom r == inject_Z i * (1 # 4) ∧
                  r_bottom r + r_height r == (inject_Z i + 1) * (1 # 4))
          (range 4) right_rects ∧
  Forall2 (λ _ r, r_left r == 1 # 4 ∧ r_left r + r_width r == 3 # 4 ∧
                  r_bottom r == 0 ∧ r_bottom r + r_height r == 1)
          (range 1) centre_rects ∧
  length (left_rects ++ right_rects ++ centre_rects) = 9%nat ∧
  (∀ (i j : nat) r1 r2 x y,
     i ≠ j →
     (left_rects ++ right_rects ++ centre_rects) !! i = Some r1 →
     (left_rects ++ right_rects ++ centre_rects) !! j = Some r2 →
     ¬ (interior r1 x y ∧ interior r2 x y)) ∧
  (∀ x y,
     (0 <= x ∧ x <= 1 ∧ 0 <= y ∧ y <= 1) ↔
     ∃ r, r ∈ left_rects ++ right_rects ++ centre_rects ∧ covers r x y).
Proof.
  split_and!.
  - repeat constructor; by vm_compute.
  - repeat constructor; by vm_compute.
  - repeat constructor; by vm_compute.
  - reflexivity.
  - intros i j r1 r2 x y. apply regions_interiors_disjoint.
  - apply regions_cover_unit_square.
Qed.

Local Close Scope Q_scope.

(** ** Cropping twice *)

Lemma filter_idempotent {A} (f : A → bool) (l : list A) :
  List.filter f (List.filter f l) = List.filter f l.
Proof.
  induction l as [|x l IH]; [done|]. simpl.
  destruct (f x) eqn:Hx; [|done]. simpl. by rewrite Hx, IH.
Qed.

Lemma clip_idempotent (b r : Z * Z) :
  SubmapSpec.clip b (SubmapSpec.clip b r) = SubmapSpec.clip b r.
Proof. unfold SubmapSpec.clip. simpl. f_equal; lia. Qed.

Lemma submap_idempotent (m : SubmapSpec.ImageMap) (range_a range_b : Z * Z) :
  SubmapSpec.submap (SubmapSpec.submap m range_a range_b) range_a range_b
  = SubmapSpec.submap m range_a range_b.
Proof.
  unfold SubmapSpec.submap. simpl.
  by rewrite filter_idempotent, !clip_idempotent.
Qed.

(** C7: cropping an image map to the crop box [(bx, bx+w)], [(by, by+h)]
    and cropping the result to the same box again gives the pixel data and
    the coordinate ranges of the first crop; the two maps are equal. *)
Theorem crop_box_idempotent (m : SubmapSpec.ImageMap) :
  let once := SubmapSpec.crop_box m in
  let twice := SubmapSpec.crop_box once in
  SubmapSpec.im_pixels twice = SubmapSpec.im_pixels once ∧
  SubmapSpec.im_xrange twice = SubmapSpec.im_xrange once ∧
  SubmapSpec.im_yrange twice = SubmapSpec.im_yrange once ∧
  twice = once.
Proof.
  intros once twice. subst once twice. unfold SubmapSpec.crop_box.
  by rewrite submap_idempotent.
Qed.

Example crop_box_sample :
  SubmapSpec.im_pixels (SubmapSpec.crop_box SubmapSpec.sample)
  = [SubmapSpec.mkPixel 0 (-100) 2; SubmapSpec.mkPixel 0 100 5] ∧
  SubmapSpec.im_xrange (SubmapSpec.crop_box SubmapSpec.sample) = (-300, 300) ∧
  SubmapSpec.im_yrange (SubmapSpec.crop_box SubmapSpec.sample) = (-150, 150).
Proof. by vm_compute. Qed.

(** ** The synthetic end-to-end scenario *)

Section Scenario.
Import Synthetic.

Lemma cropped_is_crop : crop mapw = Ok cropped.
Proof. by vm_compute. Qed.

Example script_on_partial_download :
  script partial_download hmi_file = KeyError 335.
Proof. by vm_compute. Qed.

Lemma mapwplot_draws_every_key_witness :
  keys cropped ⊆ sorted_wavelengths ∧
  ∃ fig, render cropped = Ok fig ∧
    length (List.filter (λ c : nat * Call, is_imshow c.2) (fig_calls fig))
    = length (keys cropped) ∧
    ∀ key, key ∈ keys cropped →
      ∃ (ax : nat) m, script_axes !! key = Some ax ∧ cropped !! key = Some m ∧
        images_on ax fig
        = [Imshow (data m) (cmap m) (mpl_color_normalizer m)
                  (xrange m ++ yrange m)].
Proof.
  split.
  - apply (bool_decide_unpack _). vm_compute. reflexivity.
  - apply (mapwplot_draws_every_key cropped).
    apply (bool_decide_unpack _). vm_compute. reflexivity.
Defined.

Lemma labels_generic_and_custom_witness :
  keys cropped ⊆ sorted_wavelengths ∧
  ∃ fig (ax_hmi ax_main : nat),
    render cropped = Ok fig ∧
    script_axes !! 6173 = Some ax_hmi ∧
    script_axes !! last_item sorted_wavelengths = Some ax_main ∧
    (∀ key (ax : nat),
       key ∈ keys cropped → key ≠ 6173 → key ≠ last_item sorted_wavelengths →
       script_axes !! key = Some ax →
       texts_on ax fig
       = [Text (bx + label_padx) (by_ + label_pady) (LatexNm key) "w" 16]) ∧
    texts_on ax_hmi fig
    = [Text (bx + label_padx) (by_ + label_padx)
            (Literal "LOS Magnetic Field") "w" 16] ∧
    texts_on ax_main fig = [Text (-950) (-990) (LatexNm 1700) "w" 16] ∧
    (∀ s color size,
       let generic := Text (bx + label_padx) (by_ + label_pady) s color size in
       (generic ∉ calls_on ax_hmi fig) ∧ (generic ∉ calls_on ax_main fig)).
Proof.
  split.
  - apply (bool_decide_unpack _). vm_compute. reflexivity.
  - apply (labels_generic_and_custom cropped).
    apply (bool_decide_unpack _). vm_compute. reflexivity.
Defined.

Lemma crop_rectangle_on_main_image_witness :
  keys cropped ⊆ sorted_wavelengths ∧
  ∃ fig (ax : nat) x0 y0 width height,
    render cropped = Ok fig ∧
    script_axes !! last_item sorted_wavelengths = Some ax ∧
    fig_axes fig !! ax = centre_rects !! 0%nat ∧
    patches_on ax fig = [AddPatch (Rectangle (x0, y0) width height "none")] ∧
    (x0, y0, width, height) = (-300, -150, 600, 300) ∧
    (∀ m, small_box m = submap m (x0, x0 + width) (y0, y0 + height)) ∧
    (∀ key (ax' : nat),
       script_axes !! key = Some ax' → ax' ≠ ax → patches_on ax' fig = []).
Proof.
  split.
  - apply (bool_decide_unpack _). vm_compute. reflexivity.
  - apply (crop_rectangle_on_main_image cropped).
    apply (bool_decide_unpack _). vm_compute. reflexivity.
Defined.

Lemma missing_wavelength_raises_KeyError_witness :
  335 ∈ sorted_wavelengths ∧
  build_mapw partial_download hmi_file !! 335 = None ∧
  ∃ k', k' ∈ sorted_wavelengths ∧
        build_mapw partial_download hmi_file !! k' = None ∧
        crop (build_mapw partial_download hmi_file) = KeyError k' ∧
        script partial_download hmi_file = KeyError k'.
Proof.
  assert (335 ∈ sorted_wavelengths) as Hin.
  { apply (bool_decide_unpack _). vm_compute. reflexivity. }
  assert (build_mapw partial_download hmi_file !! 335 = None) as Hnone.
  { vm_compute. reflexivity. }
  split; [exact Hin|]. split; [exact Hnone|].
  exact (missing_wavelength_raises_KeyError partial_download hmi_file 335 Hin Hnone).
Defined.

Lemma crop_ranges_witness :
  (∀ k m, k ∈ sorted_wavelengths → mapw !! k = Some m → wavelength m = k) ∧
  crop mapw = Ok cropped ∧
  (∀ k, k ∈ all_but_last sorted_wavelengths →
     k ≠ 1700 ∧
     ∃ m, mapw !! k = Some m ∧
          cropped !! k = Some (submap m (-300, 300) (-150, 150))) ∧
  (∃ m, mapw !! 1700 = Some m ∧
        cropped !! 1700 = Some (submap m (-1000, 1000) (-1000, 1000))) ∧
  (bx, bx + w) = (-300, 300) ∧ (by_, by_ + h) = (-150, 150) ∧
  last_item sorted_wavelengths = 1700.
Proof.
  assert (∀ k m, k ∈ sorted_wavelengths → mapw !! k = Some m → wavelength m = k)
    as Hkeyed.
  { intros k m Hk.
    repeat (apply elem_of_cons in Hk as [->|Hk]);
      [vm_compute; intros [= <-]; reflexivity..|].
    by apply elem_of_nil in Hk. }
  assert (crop mapw = Ok cropped) as Hcrop by (vm_compute; reflexivity).
  split; [exact Hkeyed|]. split; [exact Hcrop|].
  exact (crop_ranges mapw cropped Hkeyed Hcrop).
Defined.

Lemma centre_shows_1700_and_hmi_an_edge_witness :
  (∀ m, wavelength (rotate 3 m) = wavelength m) ∧
  wavelength hmi_file = 6173 ∧
  (∀ k, k ∈ sorted_wavelengths → k ≠ 6173 →
        ∃ m, m ∈ aia_files ∧ wavelength m = k) ∧
  ∃ fig m1700,
    script aia_files hmi_file = Ok fig ∧
    fig_axes fig = left_rects ++ right_rects ++ centre_rects ∧
    length (fig_axes fig) = 9%nat ∧ NoDup (fig_axes fig) ∧
    length (List.filter (λ c : nat * Call, is_imshow c.2) (fig_calls fig))
    = 9%nat ∧
    build_mapw aia_files hmi_file !! 1700 = Some m1700 ∧
    fig_axes fig !! 8%nat = centre_rects !! 0%nat ∧
    images_on 8 fig = [imshow_of (large_box m1700)] ∧
    fig_axes fig !! 4%nat = right_rects !! 0%nat ∧
    images_on 4 fig = [imshow_of (small_box (rotate 3 hmi_file))] ∧
    (∀ (ax : nat) k,
       sorted_wavelengths !! ax = Some k → k ≠ 1700 →
       ∃ m, build_mapw aia_files hmi_file !! k = Some m ∧
            fig_axes fig !! ax = (left_rects ++ right_rects) !! ax ∧
            images_on ax fig = [imshow_of (small_box m)]).
Proof.
  assert (∀ m : SolidMap, wavelength (rotate 3 m) = wavelength m) as Hrot
    by reflexivity.
  assert (wavelength hmi_file = 6173) as Hhmi by reflexivity.
  assert (∀ k, k ∈ sorted_wavelengths → k ≠ 6173 →
               ∃ m, m ∈ aia_files ∧ wavelength m = k) as Hfiles.
  { intros k Hk Hne. exists (full_disk k k). split; [|reflexivity].
    apply list_elem_of_fmap. exists k. split; [reflexivity|].
    repeat (apply elem_of_cons in Hk as [->|Hk]);
      [try (by destruct Hne);
       apply (bool_decide_unpack _); vm_compute; reflexivity..|].
    by apply elem_of_nil in Hk. }
  split; [exact Hrot|]. split; [exact Hhmi|]. split; [exact Hfiles|].
  exact (centre_shows_1700_and_hmi_an_edge aia_files hmi_file Hrot Hhmi Hfiles).
Defined.

(** C1, refuted as stated: in the run on the nine synthetic files the axes
    created last, the centre rectangle, shows the cropped 1700 image, and
    no image with the pixel content of the HMI file is drawn on it. *)
Lemma hmi_is_not_in_the_centre :
  ∃ fig,
    script aia_files hmi_file = Ok fig ∧
    fig_axes fig !! 8%nat = centre_rects !! 0%nat ∧
    images_on 8 fig = [imshow_of (large_box (full_disk 1700 1700))] ∧
    ¬ (∃ cm norm extent,
         Imshow (data hmi_file) cm norm extent ∈ calls_on 8 fig).
Proof.
  eexists. split; [vm_compute; reflexivity|].
  split; [reflexivity|]. split; [reflexivity|].
  intros (cm & norm & extent & Hin%list_elem_of_In).
  vm_compute in Hin. intuition discriminate.
Qed.

End Scenario.

Lemma build_axes_pairs_by_position_witness :
  NoDup Synthetic.ten_wavelengths ∧
  ∃ axes,
    build_axes Synthetic.ten_wavelengths (seq 0 9) = Ok axes ∧
    (∀ (i : nat) wave,
       Synthetic.ten_wavelengths !! i = Some wave →
       axes !! wave = seq 0 9 !! i) ∧
    (∀ wave, is_Some (axes !! wave)
             ↔ wave ∈ take (length (seq 0 9)) Synthetic.ten_wavelengths) ∧
    length sorted_wavelengths = 9%nat ∧
    length (left_rects ++ right_rects ++ centre_rects) = 9%nat.
Proof.
  assert (NoDup Synthetic.ten_wavelengths) as Hnd.
  { apply (bool_decide_unpack _). vm_compute. reflexivity. }
  split; [exact Hnd|].
  exact (build_axes_pairs_by_position Synthetic.ten_wavelengths (seq 0 9) Hnd).
Defined.

(** C3, refuted as stated: with a tenth wavelength in the ordering list and
    nine regions the assignment is built, not rejected; it has the nine
    shipped wavelengths and no entry for the tenth. *)
Lemma tenth_wavelength_silently_dropped :
  length Synthetic.ten_wavelengths = 10%nat ∧
  ∃ axes,
    build_axes Synthetic.ten_wavelengths (seq 0 9) = Ok axes ∧
    axes !! 1600 = None ∧
    keys axes ≡ₚ sorted_wavelengths.
Proof.
  split; [reflexivity|]. eexists. split; [reflexivity|].
  split; [vm_compute; reflexivity|].
  apply NoDup_Permutation; [apply NoDup_keys | apply NoDup_sorted_wavelengths|].
  intros k. rewrite elem_of_keys.
  change (dict_of_list (zip Synthetic.ten_wavelengths (seq 0 9))) with script_axes.
  symmetry. apply script_axes_is_Some.
Qed.

(** * Further properties of the script *)

(** ** Subscripts in order *)

Section Dict_more.
Context {V : Type}.
Implicit Types (l : list (Z * V)) (d : gmap Z V) (k : Z) (v : V).

(** A comprehension of subscripts raises for the first key, in the order of
    the list, that the dictionary lacks. *)
Lemma list_comp_getitem_KeyError_iff d (ks : list Z) k :
  list_comp (getitem d) ks = KeyError k ↔
  ∃ pre post, ks = pre ++ k :: post ∧ d !! k = None ∧
              ∀ k', k' ∈ pre → is_Some (d !! k').
Proof.
  induction ks as [|k0 ks IH]; simpl.
  - split; [done|]. intros (pre & post & Heq & _). by destruct pre.
  - unfold mbind, result_bind. destruct (getitem d k0) as [v|k1] eqn:Hk0.
    + apply getitem_Ok in Hk0.
      destruct (list_comp (getitem d) ks) as [vs|k2] eqn:Hks.
      * split; [done|]. intros (pre & post & Heq & Hnone & Hpre).
        destruct pre as [|k' pre]; simplify_eq/=.
        assert (Ok vs = KeyError k) as Habs; [|done].
        apply IH. exists pre, post. split_and!; [done..|].
        intros k'' Hin. apply Hpre. by right.
      * split.
        -- intros [= ->]. destruct (proj1 IH eq_refl) as (pre & post & -> & ? & Hpre).
           exists (k0 :: pre), post. split_and!; [done..|].
           intros k' [->|Hin]%elem_of_cons; [by eexists | by apply Hpre].
        -- intros (pre & post & Heq & Hnone & Hpre).
           destruct pre as [|k' pre]; simplify_eq/=.
           f_equal. assert (KeyError k2 = KeyError k :> result (list V)) as [=]; [|done].
           apply IH. exists pre, post. split_and!; [done..|].
           intros k'' Hin. apply Hpre. by right.
    + apply getitem_KeyError in Hk0 as [-> Hk0]. split.
      * intros [= ->]. exists [], ks. split_and!; [done..|]. intros k' Hin.
        by apply elem_of_nil in Hin.
      * intros (pre & post & Heq & Hnone & Hpre).
        destruct pre as [|k' pre]; simplify_eq/=; [done|].
        destruct (Hpre k') as [v Hv]; [left|]. congruence.
Qed.

Lemma list_comp_getitem_ext d d' (ks : list Z) :
  (∀ k, k ∈ ks → d !! k = d' !! k) →
  list_comp (getitem d) ks = list_comp (getitem d') ks.
Proof.
  induction ks as [|k ks IH]; intros Hagree; simpl; [done|].
  assert (getitem d k = getitem d' k) as ->.
  { unfold getitem. by rewrite (Hagree k) by left. }
  rewrite IH; [done|]. intros k' Hin. apply Hagree. by right.
Qed.

(** Without duplicate keys the order of the items does not matter. *)
Lemma dict_of_list_Permutation l l' :
  l ≡ₚ l' → NoDup l.*1 → dict_of_list l = dict_of_list l'.
Proof.
  intros Hperm Hnd. apply map_eq. intros k.
  assert (NoDup l'.*1) as Hnd' by by rewrite <- Hperm.
  destruct (dict_of_list l !! k) as [v|] eqn:Hk.
  - symmetry. apply dict_of_list_lookup_NoDup; [done|].
    rewrite <- Hperm. by apply dict_of_list_lookup_Some.
  - symmetry. apply dict_of_list_lookup_None. rewrite <- Hperm.
    by apply dict_of_list_lookup_None.
Qed.

End Dict_more.

(** ** Outcomes of the cropping stage *)

Section Crop_more.
Context {Map : Type} `{SunpyMap Map}.
Implicit Types (m hmi : Map) (aia_maps : list Map) (mapw maps : gmap Z Map) (k : Z).

Lemma crop_ext mapw mapw' :
  (∀ k, k ∈ sorted_wavelengths → mapw !! k = mapw' !! k) →
  crop mapw = crop mapw'.
Proof.
  intros Hagree. unfold crop.
  rewrite (list_comp_getitem_ext mapw mapw').
  2:{ intros k Hk. apply Hagree, elem_of_sorted_wavelengths. by left. }
  assert (getitem mapw 1700 = getitem mapw' 1700) as ->; [|done].
  unfold getitem. rewrite (Hagree 1700); [done|].
  apply elem_of_sorted_wavelengths. by right.
Qed.

(** The cropping stage succeeds exactly when every wavelength of the
    ordering list has a map, and otherwise raises [KeyError] for the first
    wavelength, in the order of the list, that has none. *)
Theorem crop_outcome mapw :
  ((∃ maps, crop mapw = Ok maps) ↔
   ∀ k, k ∈ sorted_wavelengths → is_Some (mapw !! k)) ∧
  (∀ k, crop mapw = KeyError k ↔
        ∃ pre post, sorted_wavelengths = pre ++ k :: post ∧
                    mapw !! k = None ∧
                    ∀ k', k' ∈ pre → is_Some (mapw !! k')).
Proof.
  split.
  - split; [|apply crop_total].
    intros [maps Hmaps] k Hk.
    destruct (mapw !! k) as [m|] eqn:Hm; [by eexists|].
    destruct (crop_KeyError mapw k Hk Hm) as (k' & _ & _ & Herr). congruence.
  - intros k. rewrite sorted_wavelengths_split. split.
    + unfold crop, mbind, result_bind.
      destruct (list_comp _ _) as [ms|k0] eqn:Hms.
      * destruct (getitem mapw 1700) as [m|k1] eqn:H1700; [done|].
        apply getitem_KeyError in H1700 as [-> H1700]. intros [= <-].
        exists (all_but_last sorted_wavelengths), []. split_and!; [done..|].
        apply list_comp_getitem_Ok in Hms. intros k' Hk'.
        apply list_elem_of_lookup in Hk' as [i Hi].
        destruct (Forall2_lookup_l _ _ _ _ _ Hms Hi) as (m & _ & ->). by eexists.
      * intros [= ->].
        apply list_comp_getitem_KeyError_iff in Hms
          as (pre & post & -> & Hnone & Hpre).
        exists pre, (post ++ [1700]). split_and!; [|done..].
        by rewrite <- app_assoc.
    + intros (pre & post & Heq & Hnone & Hpre).
      unfold crop, mbind, result_bind.
      destruct post as [|k1 post _] using rev_ind.
      * apply app_inj_tail in Heq as [<- <-].
        destruct (list_comp_getitem_total mapw (all_but_last sorted_wavelengths))
          as [ms ->]; [done|].
        unfold getitem. by rewrite Hnone.
      * change (pre ++ k :: post ++ [k1]) with (pre ++ (k :: post) ++ [k1]) in Heq.
        rewrite app_assoc in Heq. apply app_inj_tail in Heq as [-> <-].
        assert (list_comp (getitem mapw) (pre ++ k :: post) = KeyError k) as ->;
          [|done].
        apply list_comp_getitem_KeyError_iff. by exists pre, post.
Qed.

(** The cropped dictionary is keyed by the wavelength tag of each map, not
    by the wavelength it was looked up under: whatever the tags are, the
    entry for 1700 is the large crop of [mapw[1700]], every other entry is
    the small crop of a map of the first eight wavelengths that carries the
    entry's key as its tag, and there are at most nine entries. *)
Theorem cropped_entries_keyed_by_tag mapw maps :
  crop mapw = Ok maps →
  (∃ m, mapw !! 1700 = Some m ∧ maps !! 1700 = Some (large_box m)) ∧
  (∀ k c, k ≠ 1700 → maps !! k = Some c →
     ∃ key m, key ∈ all_but_last sorted_wavelengths ∧ mapw !! key = Some m ∧
              wavelength m = k ∧ c = small_box m) ∧
  (size maps ≤ 9)%nat.
Proof.
  intros (ms & m1700 & Hms & H1700 & ->)%crop_Ok_inv. split_and!.
  - exists m1700. by rewrite lookup_insert_eq.
  - intros k c Hne. rewrite lookup_insert_ne by done.
    intros (m & [= -> ->] & Hin)%dict_of_list_lookup_Some%list_elem_of_fmap.
    apply list_elem_of_lookup in Hin as [i Hi].
    destruct (Forall2_lookup_r _ _ _ _ _ Hms Hi) as (key & Hkey & Hm).
    exists key, m. split_and!; [|done..]. by eapply list_elem_of_lookup_2.
  - assert (∀ (l : list (Z * Map)), size (dict_of_list l) ≤ length l)%nat as Hsize.
    { induction l as [|[k v] l IH] using rev_ind; [done|].
      rewrite dict_of_list_snoc, length_app. simpl.
      destruct (dict_of_list l !! k) as [v'|] eqn:Hk.
      - rewrite map_size_insert_Some by done. lia.
      - rewrite map_size_insert_None by done. lia. }
    apply Forall2_length in Hms.
    destruct (dict_of_list ((λ m, (wavelength m, small_box m)) <$> ms) !! 1700)
      as [c|] eqn:Hk.
    + rewrite map_size_insert_Some by done.
      etrans; [apply Hsize|]. rewrite length_fmap, <- Hms. simpl. lia.
    + rewrite map_size_insert_None by done.
      pose proof (Hsize ((λ m, (wavelength m, small_box m)) <$> ms)) as Hle.
      rewrite length_fmap, <- Hms in Hle. simpl in Hle. lia.
Qed.

Lemma build_mapw_filter_lookup aia_maps hmi k :
  k ∈ sorted_wavelengths →
  build_mapw (filter (λ m, wavelength m ∈ sorted_wavelengths) aia_maps) hmi !! k
  = build_mapw aia_maps hmi !! k.
Proof.
  intros Hk. destruct (decide (k = 6173)) as [->|Hne].
  { by rewrite !build_mapw_lookup_hmi. }
  rewrite !build_mapw_lookup_ne by done.
  induction aia_maps as [|m aia_maps IH] using rev_ind; [done|].
  rewrite filter_app, !fmap_app. simpl.
  destruct (decide (wavelength m ∈ sorted_wavelengths)) as [Hin|Hout].
  - rewrite filter_cons_True by done. simpl.
    rewrite !dict_of_list_snoc.
    destruct (decide (wavelength m = k)) as [->|Hne'].
    + by rewrite !lookup_insert_eq.
    + by rewrite !lookup_insert_ne.
  - rewrite filter_cons_False by done. simpl. rewrite app_nil_r.
    rewrite dict_of_list_snoc, lookup_insert_ne; [done|].
    intros Heq. apply Hout. by rewrite Heq.
Qed.

(** Downloaded files of wavelengths that are not in the ordering list (the
    1600 and 4500 channels of AIA, say) have no effect on the run. *)
Theorem other_wavelengths_are_ignored aia_maps hmi :
  script (filter (λ m, wavelength m ∈ sorted_wavelengths) aia_maps) hmi
  = script aia_maps hmi.
Proof.
  unfold script.
  rewrite (crop_ext (build_mapw (filter _ aia_maps) hmi) (build_mapw aia_maps hmi));
    [done|].
  intros k Hk. by apply build_mapw_filter_lookup.
Qed.

(** When no two files share a wavelength, the order in which the files are
    enumerated does not matter. *)
Theorem file_order_is_irrelevant aia_maps aia_maps' hmi :
  aia_maps ≡ₚ aia_maps' →
  NoDup (wavelength <$> aia_maps) →
  build_mapw aia_maps hmi = build_mapw aia_maps' hmi ∧
  script aia_maps hmi = script aia_maps' hmi.
Proof.
  intros Hperm Hnd.
  assert (build_mapw aia_maps hmi = build_mapw aia_maps' hmi) as Heq.
  { unfold build_mapw. f_equal. apply dict_of_list_Permutation.
    - by apply fmap_Permutation.
    - by rewrite <- list_fmap_compose. }
  split; [done|]. unfold script. by rewrite Heq.
Qed.

End Crop_more.

(** ** Outcomes of the rendering stage *)

Section Render_more.
Context {Map : Type} `{SunpyMap Map}.
Implicit Types (m : Map) (maps : gmap Z Map) (k key : Z) (fig : Figure).

Lemma mapwplot_KeyError axes maps key fig :
  axes !! key = None ∨ maps !! key = None →
  mapwplot axes maps key fig = KeyError key.
Proof.
  intros Hnone. unfold mapwplot, getitem.
  destruct (axes !! key) as [ax|]; [|done]. simpl.
  destruct Hnone as [Hn|Hn]; [done | by rewrite Hn].
Qed.

Lemma py2_map_mapwplot_KeyError axes maps (ks : list Z) fig :
  Exists (λ k, axes !! k = None ∨ maps !! k = None) ks →
  ∃ k, py2_map (mapwplot axes maps) ks fig = KeyError k ∧ k ∈ ks ∧
       (axes !! k = None ∨ maps !! k = None).
Proof.
  revert fig. induction ks as [|k ks IH]; intros fig Hex.
  { by apply Exists_nil in Hex. }
  simpl. destruct (axes !! k) as [ax|] eqn:Hax.
  - destruct (maps !! k) as [m|] eqn:Hm.
    + rewrite mapwplot_eq by by eexists. unfold mbind, result_bind.
      apply Exists_cons in Hex as [Hn|Hex]; [destruct Hn; congruence|].
      destruct (IH (mkFigure (figsize fig) (fig_axes fig)
                             (fig_calls fig ++ plot_calls axes maps k)) Hex)
        as (k' & -> & Hin & Hnone).
      exists k'. split_and!; [done | by right | done].
    + rewrite mapwplot_KeyError by by right.
      exists k. split_and!; [done | left | by right].
  - rewrite mapwplot_KeyError by by left.
    exists k. split_and!; [done | left | by left].
Qed.

Lemma render_KeyError maps :
  ¬ keys maps ⊆ sorted_wavelengths →
  ∃ k, render maps = KeyError k ∧ k ∈ keys maps ∧ k ∉ sorted_wavelengths.
Proof.
  intros Hnot.
  assert (Exists (λ k, script_axes !! k = None ∨ maps !! k = None) (keys maps))
    as Hex.
  { assert (¬ Forall (λ k, k ∈ sorted_wavelengths) (keys maps)) as Hno.
    { rewrite Forall_forall. intros Hall. apply Hnot. intros k. apply Hall. }
    apply not_Forall_Exists in Hno; [|apply _].
    eapply Exists_impl; [exact Hno|]. intros k Hk. simpl in Hk. left.
    apply eq_None_not_Some. by rewrite <- script_axes_is_Some. }
  unfold render. rewrite !add_axes_each_eq.
  change (build_axes _ _) with (Ok script_axes : result _).
  unfold mbind at 1. unfold result_bind at 1.
  match goal with
  | |- context [py2_map ?f ?l ?fig0] =>
      destruct (py2_map_mapwplot_KeyError script_axes maps l fig0 Hex)
        as (k & -> & Hin & Hnone)
  end.
  exists k. split_and!; [done..|].
  destruct Hnone as [Hnone|Hnone].
  - intros Hk%script_axes_is_Some. rewrite Hnone in Hk. by destruct Hk.
  - apply elem_of_keys in Hin. rewrite Hnone in Hin. by destruct Hin.
Qed.

(** No call is made on anything but the nine axes. *)
Lemma calls_on_final_figure_out maps (ax : nat) :
  (9 ≤ ax)%nat → calls_on ax (final_figure maps) = [].
Proof.
  intros Hax. unfold calls_on, final_figure. simpl.
  change (λ c : nat * Call, if decide (c.1 = ax) then Some c.2 else None)
    with (on_axes ax).
  rewrite omap_app, on_axes_plot_calls.
  assert (omap (on_axes ax) finishing_calls = []) as ->.
  { assert (Forall (λ c : nat * Call, (c.1 < 9)%nat) finishing_calls) as Hall.
    { vm_compute. repeat constructor. }
    induction Hall as [|[ax' c] l Hlt _ IH]; [done|]. simpl in *.
    unfold on_axes at 1. simpl. rewrite decide_False by lia. done. }
  rewrite app_nil_r. induction (keys maps) as [|k ks IH]; [done|].
  rewrite fmap_cons, concat_cons, IH, app_nil_r.
  rewrite decide_False; [done|].
  intros Hk%script_axes_lookup%lookup_lt_Some. simpl in Hk. lia.
Qed.

(** The rendering stage completes exactly when every key of the cropped
    dictionary is a wavelength of the ordering list; otherwise [mapwplot]
    raises [KeyError] for a key of the dictionary that has no axes, and no
    figure is shown. *)
Theorem render_outcome maps :
  ((∃ fig, render maps = Ok fig) ↔ keys maps ⊆ sorted_wavelengths) ∧
  (¬ keys maps ⊆ sorted_wavelengths →
   ∃ k, render maps = KeyError k ∧ k ∈ keys maps ∧ k ∉ sorted_wavelengths).
Proof.
  split; [|apply render_KeyError]. split.
  - intros [fig Hfig].
    destruct (decide (keys maps ⊆ sorted_wavelengths)) as [|Hnot]; [done|].
    destruct (render_KeyError maps Hnot) as (k & Hk & _). congruence.
  - intros Hkeys. exists (final_figure maps). by apply render_ok_keys.
Qed.

(** Lines 98-99: in a completed rendering each of the nine axes, with or
    without an image, has its x ticks and then its y ticks set to the empty
    list, once each, and no axes other than the nine is ever called. *)
Theorem ticks_removed_from_every_axes maps :
  keys maps ⊆ sorted_wavelengths →
  ∃ fig, render maps = Ok fig ∧
    (∀ ax : nat, (ax < 9)%nat →
       List.filter is_set_ticks (calls_on ax fig) = [SetXTicks []; SetYTicks []]) ∧
    (∀ ax : nat, (9 ≤ ax)%nat → calls_on ax fig = []).
Proof.
  intros Hkeys. exists (final_figure maps). split; [by apply render_ok_keys|].
  split.
  - intros ax Hax.
    destruct (lookup_lt_is_Some_2 sorted_wavelengths ax) as [k Hk]; [done|].
    apply script_axes_lookup in Hk.
    rewrite (calls_on_final_figure maps k ax Hk), List.filter_app.
    unfold plot_cmds, finishing_cmds.
    destruct (maps !! k); repeat case_decide; by try case_bool_decide.
  - apply calls_on_final_figure_out.
Qed.

(** The rendering stage does not check that every axes gets an image: a
    wavelength of the ordering list that is no key of the cropped
    dictionary leaves its axes without image and without wavelength label,
    and the rendering still completes. *)
Theorem region_without_cropped_map_stays_blank maps key (ax : nat) :
  keys maps ⊆ sorted_wavelengths →
  script_axes !! key = Some ax →
  maps !! key = None →
  ∃ fig, render maps = Ok fig ∧
    images_on ax fig = [] ∧
    (∀ s color size,
       (Text (bx + label_padx) (by_ + label_pady) s color size) ∉ calls_on ax fig).
Proof.
  intros Hkeys Hax Hnone. exists (final_figure maps).
  split; [by apply render_ok_keys|]. split.
  - by rewrite (images_on_final_figure maps key ax Hax), Hnone.
  - intros s color size.
    rewrite (calls_on_final_figure maps key ax Hax), plot_cmds_None by done.
    unfold finishing_cmds.
    repeat case_decide; intros Hin%list_elem_of_In; vm_compute in Hin;
      intuition discriminate.
Qed.

(** On every axes the image is the first thing drawn: the labels, the tick
    settings and the rectangle all come after it. *)
Theorem image_is_drawn_first maps :
  keys maps ⊆ sorted_wavelengths →
  ∃ fig, render maps = Ok fig ∧
    ∀ (ax : nat) before c after,
      calls_on ax fig = before ++ c :: after → is_imshow c = true → before = [].
Proof.
  intros Hkeys. exists (final_figure maps). split; [by apply render_ok_keys|].
  intros ax before c after Hcalls Himg.
  destruct before as [|c0 before]; [done|]. exfalso.
  destruct (decide (ax < 9)%nat) as [Hax|Hax].
  - destruct (lookup_lt_is_Some_2 sorted_wavelengths ax) as [k Hk]; [done|].
    apply script_axes_lookup in Hk.
    rewrite (calls_on_final_figure maps k ax Hk) in Hcalls.
    assert (c ∈ List.tail (plot_cmds maps k ++ finishing_cmds ax)) as Hin.
    { rewrite Hcalls. simpl. apply elem_of_app. right. left. }
    unfold plot_cmds, finishing_cmds in Hin.
    destruct (maps !! k); repeat case_decide; try case_bool_decide;
      apply list_elem_of_In in Hin; simpl in Hin;
      intuition (subst; discriminate).
  - rewrite calls_on_final_figure_out in Hcalls by lia. discriminate.
Qed.

End Render_more.

(** ** Outcomes of the whole run *)

Section Script_more.
Context {Map : Type} `{SunpyMap Map}.
Implicit Types (m hmi : Map) (aia_maps : list Map) (mapw maps : gmap Z Map) (k : Z).

Lemma script_Ok_inv aia_maps hmi fig :
  script aia_maps hmi = Ok fig ↔
  ∃ maps, crop (build_mapw aia_maps hmi) = Ok maps ∧
          keys maps ⊆ sorted_wavelengths ∧ fig = final_figure maps.
Proof.
  unfold script, mbind, result_bind. split.
  - destruct (crop _) as [maps|] eqn:Hcrop; [|done]. intros Hrender.
    exists maps. split; [done|].
    destruct (decide (keys maps ⊆ sorted_wavelengths)) as [Hkeys|Hnot].
    + split; [done|]. rewrite render_ok_keys in Hrender by done. congruence.
    + destruct (render_KeyError maps Hnot) as (k & Hk & _). congruence.
  - intros (maps & -> & Hkeys & ->). by apply render_ok_keys.
Qed.

Lemma build_mapw_lookup_aia aia_maps hmi k m :
  k ≠ 6173 → build_mapw aia_maps hmi !! k = Some m →
  ∃ m0, m0 ∈ aia_maps ∧ wavelength m0 = k ∧ m = rotate 3 m0.
Proof.
  intros Hne. rewrite build_mapw_lookup_ne by done.
  intros (m0 & [= -> ->] & Hin)%dict_of_list_lookup_Some%list_elem_of_fmap.
  by exists m0.
Qed.

Lemma crop_lookup_Some mapw maps k c :
  crop mapw = Ok maps → maps !! k = Some c →
  ∃ key m, key ∈ sorted_wavelengths ∧ mapw !! key = Some m ∧
    (c = small_box m ∧ wavelength m = k ∨ c = large_box m ∧ k = 1700).
Proof.
  intros (ms & m1700 & Hms & H1700 & ->)%crop_Ok_inv.
  destruct (decide (k = 1700)) as [->|Hne].
  - rewrite lookup_insert_eq. intros [= <-]. exists 1700, m1700.
    split_and!; [|done|by right]. apply elem_of_sorted_wavelengths. by right.
  - rewrite lookup_insert_ne by done.
    intros (m & [= -> ->] & Hin)%dict_of_list_lookup_Some%list_elem_of_fmap.
    apply list_elem_of_lookup in Hin as [i Hi].
    destruct (Forall2_lookup_r _ _ _ _ _ Hms Hi) as (key & Hkey & Hm).
    exists key, m. split_and!; [|done|by left].
    apply elem_of_sorted_wavelengths. left. by eapply list_elem_of_lookup_2.
Qed.

(** When rotating keeps the wavelength tag and the HMI file is tagged
    6173, the script shows a figure exactly when each of the eight AIA
    wavelengths of the ordering list has a downloaded file. *)
Theorem script_succeeds_iff_every_wavelength_has_a_file aia_maps hmi :
  (∀ m, wavelength (rotate 3 m) = wavelength m) →
  wavelength hmi = 6173 →
  ((∃ fig, script aia_maps hmi = Ok fig) ↔
   ∀ k, k ∈ sorted_wavelengths → k ≠ 6173 →
        ∃ m, m ∈ aia_maps ∧ wavelength m = k).
Proof.
  intros Hrot Hhmi. split.
  - intros [fig (maps & Hcrop & _)%script_Ok_inv] k Hk Hne.
    destruct (build_mapw aia_maps hmi !! k) as [m|] eqn:Hm.
    + destruct (build_mapw_lookup_aia _ _ _ _ Hne Hm) as (m0 & ? & ? & _).
      by exists m0.
    + destruct (crop_KeyError _ k Hk Hm) as (k' & _ & _ & Herr). congruence.
  - intros Hfiles. set (mapw := build_mapw aia_maps hmi).
    assert (∀ k m, k ∈ sorted_wavelengths → mapw !! k = Some m → wavelength m = k)
      as Hkeyed.
    { intros k m _. by apply build_mapw_keyed. }
    destruct (crop_total mapw) as [maps Hcrop].
    { intros k Hk. apply build_mapw_is_Some.
      destruct (decide (k = 6173)); [by left | right; by apply Hfiles]. }
    destruct (crop_keys mapw maps Hkeyed Hcrop) as [Hkeys _].
    exists (final_figure maps). apply script_Ok_inv. by exists maps.
Qed.

(** The cropped dictionary is keyed by the tag of the map, so an HMI file
    whose tag is not a wavelength of the ordering list makes the rendering
    stage fail although every file is present: the run ends with [KeyError]
    for that tag. *)
Theorem mistagged_hmi_raises_KeyError aia_maps hmi :
  (∀ m, m ∈ aia_maps → wavelength (rotate 3 m) = wavelength m) →
  (∀ k, k ∈ sorted_wavelengths → k ≠ 6173 →
        ∃ m, m ∈ aia_maps ∧ wavelength m = k) →
  wavelength (rotate 3 hmi) ∉ sorted_wavelengths →
  script aia_maps hmi = KeyError (wavelength (rotate 3 hmi)).
Proof.
  intros Hrot Hfiles Htag. set (mapw := build_mapw aia_maps hmi).
  destruct (crop_total mapw) as [maps Hcrop].
  { intros k Hk. apply build_mapw_is_Some.
    destruct (decide (k = 6173)); [by left | right; by apply Hfiles]. }
  assert (∀ k, k ∈ keys maps →
               k ∈ sorted_wavelengths ∨ k = wavelength (rotate 3 hmi)) as Hkeys.
  { intros k [c Hc]%elem_of_keys.
    destruct (crop_lookup_Some mapw maps k c Hcrop Hc)
      as (key & m & Hkey & Hm & [[_ <-]| [_ ->]]).
    - destruct (decide (key = 6173)) as [->|Hne].
      + unfold mapw in Hm. rewrite build_mapw_lookup_hmi in Hm.
        injection Hm as <-. by right.
      + destruct (build_mapw_lookup_aia _ _ _ _ Hne Hm) as (m0 & Hin & <- & ->).
        left. by rewrite Hrot.
    - left. apply elem_of_sorted_wavelengths. by right. }
  assert (wavelength (rotate 3 hmi) ∈ keys maps) as Hin.
  { apply elem_of_keys. apply crop_Ok_inv in Hcrop as (ms & m1700 & Hms & _ & ->).
    rewrite lookup_insert_ne.
    2:{ intros Heq. apply Htag. rewrite <- Heq.
        apply elem_of_sorted_wavelengths. by right. }
    apply not_eq_None_Some. rewrite dict_of_list_lookup_None.
    intros Hno. apply Hno. rewrite <- list_fmap_compose.
    apply list_elem_of_fmap. exists (rotate 3 hmi). split; [done|].
    assert (all_but_last sorted_wavelengths !! 4%nat = Some 6173) as H4
      by reflexivity.
    destruct (Forall2_lookup_l _ _ _ _ _ Hms H4) as (m & Hm & Hlook).
    unfold mapw in Hlook. rewrite build_mapw_lookup_hmi in Hlook.
    injection Hlook as <-. by eapply list_elem_of_lookup_2. }
  destruct (render_KeyError maps) as (k & Hk & Hkin & Hkout).
  { intros Hsub. by apply Htag, Hsub. }
  unfold script. fold mapw. rewrite Hcrop. simpl.
  destruct (Hkeys k Hkin) as [?| ->]; done.
Qed.

(** Whatever the run draws is a crop: every image of a shown figure is the
    small or the large crop of a map stored in [mapw] under a wavelength of
    the ordering list, and it is drawn on the axes of its own wavelength
    tag (1700 for the large crop).  No full-disk map is drawn uncropped. *)
Theorem every_image_is_a_crop aia_maps hmi fig :
  script aia_maps hmi = Ok fig →
  ∀ (ax : nat) c, (ax, c) ∈ fig_calls fig → is_imshow c = true →
    ∃ key m, key ∈ sorted_wavelengths ∧
      build_mapw aia_maps hmi !! key = Some m ∧
      (c = imshow_of (small_box m) ∧ script_axes !! wavelength m = Some ax ∨
       c = imshow_of (large_box m) ∧ script_axes !! 1700 = Some ax).
Proof.
  intros (maps & Hcrop & Hkeys & ->)%script_Ok_inv ax c Hin Himg.
  unfold final_figure in Hin. simpl in Hin.
  apply elem_of_app in Hin as [Hin|Hin].
  - apply list_elem_of_In, in_concat in Hin as (l & Hl & Hin).
    apply list_elem_of_In in Hl, Hin.
    apply list_elem_of_fmap in Hl as (k & -> & Hk).
    unfold plot_calls in Hin.
    destruct (script_axes !! k) as [ax'|] eqn:Hax; [|by apply elem_of_nil in Hin].
    apply list_elem_of_fmap in Hin as (c' & [= -> ->] & Hc).
    unfold plot_cmds in Hc.
    destruct (maps !! k) as [cm|] eqn:Hcm; [|by apply elem_of_nil in Hc].
    assert (c' = imshow_of cm) as ->.
    { apply elem_of_cons in Hc as [->|Hc]; [done|].
      case_bool_decide; [|by apply elem_of_nil in Hc].
      apply list_elem_of_singleton in Hc as ->. discriminate. }
    destruct (crop_lookup_Some _ maps k cm Hcrop Hcm)
      as (key & m & Hkey & Hm & [[-> <-]|[-> ->]]);
      exists key, m; split_and!; auto.
  - exfalso. apply list_elem_of_In in Hin.
    assert (Forall (λ c : nat * Call, is_imshow c.2 = false) finishing_calls)
      as Hall by (vm_compute; repeat constructor).
    rewrite Forall_forall in Hall. apply list_elem_of_In, Hall in Hin.
    simpl in Hin. congruence.
Qed.

End Script_more.

(** ** The further properties on the synthetic files *)

Section Scenario_more.
Import Synthetic.

Example other_channels_change_nothing :
  script with_other_channels hmi_file = script aia_files hmi_file.
Proof. by vm_compute. Qed.

Example untagged_hmi_run :
  script aia_files untagged_hmi_file = KeyError 0.
Proof. by vm_compute. Qed.

Lemma cropped_entries_keyed_by_tag_witness :
  crop mapw = Ok cropped ∧
  (∃ m, mapw !! 1700 = Some m ∧ cropped !! 1700 = Some (large_box m)) ∧
  (∀ k c, k ≠ 1700 → cropped !! k = Some c →
     ∃ key m, key ∈ all_but_last sorted_wavelengths ∧ mapw !! key = Some m ∧
              wavelength m = k ∧ c = small_box m) ∧
  (size cropped ≤ 9)%nat.
Proof.
  assert (crop mapw = Ok cropped) as Hcrop by (vm_compute; reflexivity).
  split; [exact Hcrop|].
  exact (cropped_entries_keyed_by_tag mapw cropped Hcrop).
Defined.

Lemma file_order_is_irrelevant_witness :
  aia_files ≡ₚ reverse aia_files ∧
  NoDup (wavelength <$> aia_files) ∧
  build_mapw aia_files hmi_file = build_mapw (reverse aia_files) hmi_file ∧
  script aia_files hmi_file = script (reverse aia_files) hmi_file.
Proof.
  assert (aia_files ≡ₚ reverse aia_files) as Hperm.
  { symmetry. apply reverse_Permutation. }
  assert (NoDup (wavelength <$> aia_files)) as Hnd.
  { apply (bool_decide_unpack _). vm_compute. reflexivity. }
  split; [exact Hperm|]. split; [exact Hnd|].
  exact (file_order_is_irrelevant aia_files (reverse aia_files) hmi_file Hperm Hnd).
Defined.

Lemma ticks_removed_from_every_axes_witness :
  keys cropped ⊆ sorted_wavelengths ∧
  ∃ fig, render cropped = Ok fig ∧
    (∀ ax : nat, (ax < 9)%nat →
       List.filter is_set_ticks (calls_on ax fig) = [SetXTicks []; SetYTicks []]) ∧
    (∀ ax : nat, (9 ≤ ax)%nat → calls_on ax fig = []).
Proof.
  split.
  - apply (bool_decide_unpack _). vm_compute. reflexivity.
  - apply (ticks_removed_from_every_axes cropped).
    apply (bool_decide_unpack _). vm_compute. reflexivity.
Defined.

Lemma region_without_cropped_map_stays_blank_witness :
  keys (∅ : gmap Z SolidMap) ⊆ sorted_wavelengths ∧
  script_axes !! 335 = Some 0%nat ∧
  (∅ : gmap Z SolidMap) !! 335 = None ∧
  ∃ fig, render (∅ : gmap Z SolidMap) = Ok fig ∧
    images_on 0 fig = [] ∧
    (∀ s color size,
       (Text (bx + label_padx) (by_ + label_pady) s color size) ∉ calls_on 0 fig).
Proof.
  assert (keys (∅ : gmap Z SolidMap) ⊆ sorted_wavelengths) as Hkeys.
  { apply (bool_decide_unpack _). vm_compute. reflexivity. }
  assert (script_axes !! 335 = Some 0%nat) as Hax by (vm_compute; reflexivity).
  assert ((∅ : gmap Z SolidMap) !! 335 = None) as Hnone by reflexivity.
  split; [exact Hkeys|]. split; [exact Hax|]. split; [exact Hnone|].
  exact (region_without_cropped_map_stays_blank ∅ 335 0 Hkeys Hax Hnone).
Defined.

Lemma image_is_drawn_first_witness :
  keys cropped ⊆ sorted_wavelengths ∧
  ∃ fig, render cropped = Ok fig ∧
    ∀ (ax : nat) before c after,
      calls_on ax fig = before ++ c :: after → is_imshow c = true → before = [].
Proof.
  split.
  - apply (bool_decide_unpack _). vm_compute. reflexivity.
  - apply (image_is_drawn_first cropped).
    apply (bool_decide_unpack _). vm_compute. reflexivity.
Defined.

Lemma script_succeeds_iff_every_wavelength_has_a_file_witness :
  (∀ m : SolidMap, wavelength (rotate 3 m) = wavelength m) ∧
  wavelength hmi_file = 6173 ∧
  ((∃ fig, script partial_download hmi_file = Ok fig) ↔
   ∀ k, k ∈ sorted_wavelengths → k ≠ 6173 →
        ∃ m, m ∈ partial_download ∧ wavelength m = k).
Proof.
  assert (∀ m : SolidMap, wavelength (rotate 3 m) = wavelength m) as Hrot
    by reflexivity.
  assert (wavelength hmi_file = 6173) as Hhmi by reflexivity.
  split; [exact Hrot|]. split; [exact Hhmi|].
  exact (script_succeeds_iff_every_wavelength_has_a_file
           partial_download hmi_file Hrot Hhmi).
Defined.

Lemma mistagged_hmi_raises_KeyError_witness :
  (∀ m, m ∈ aia_files → wavelength (rotate 3 m) = wavelength m) ∧
  (∀ k, k ∈ sorted_wavelengths → k ≠ 6173 →
        ∃ m, m ∈ aia_files ∧ wavelength m = k) ∧
  (wavelength (rotate 3 untagged_hmi_file) ∉ sorted_wavelengths) ∧
  script aia_files untagged_hmi_file
  = KeyError (wavelength (rotate 3 untagged_hmi_file)).
Proof.
  assert (∀ m, m ∈ aia_files → wavelength (rotate 3 m) = wavelength m) as Hrot
    by reflexivity.
  assert (∀ k, k ∈ sorted_wavelengths → k ≠ 6173 →
               ∃ m, m ∈ aia_files ∧ wavelength m = k) as Hfiles.
  { intros k Hk Hne. exists (full_disk k k). split; [|reflexivity].
    apply list_elem_of_fmap. exists k. split; [reflexivity|].
    repeat (apply elem_of_cons in Hk as [->|Hk]);
      [try (by destruct Hne);
       apply (bool_decide_unpack _); vm_compute; reflexivity..|].
    by apply elem_of_nil in Hk. }
  assert (wavelength (rotate 3 untagged_hmi_file) ∉ sorted_wavelengths) as Htag.
  { apply (bool_decide_unpack _). vm_compute. reflexivity. }
  split; [exact Hrot|]. split; [exact Hfiles|]. split; [exact Htag|].
  exact (mistagged_hmi_raises_KeyError aia_files untagged_hmi_file Hrot Hfiles Htag).
Defined.

Lemma every_image_is_a_crop_witness :
  ∃ fig,
    script aia_files hmi_file = Ok fig ∧
    ∀ (ax : nat) c, (ax, c) ∈ fig_calls fig → is_imshow c = true →
      ∃ key m, key ∈ sorted_wavelengths ∧
        build_mapw aia_files hmi_file !! key = Some m ∧
        (c = imshow_of (small_box m) ∧ script_axes !! wavelength m = Some ax ∨
         c = imshow_of (large_box m) ∧ script_axes !! 1700 = Some ax).
Proof.
  eexists (final_figure cropped).
  assert (script aia_files hmi_file = Ok (final_figure cropped)) as Hrun
    by (vm_compute; reflexivity).
  split; [exact Hrun|].
  exact (every_image_is_a_crop aia_files hmi_file (final_figure cropped) Hrun).
Defined.

End Scenario_more.

(** ** The region assignment with repeated wavelengths *)

Lemma dict_of_list_lookup_Some_iff {V} (l : list (Z * V)) (k : Z) (v : V) :
  dict_of_list l !! k = Some v ↔
  ∃ i : nat, l !! i = Some (k, v) ∧
    ∀ (j : nat) v', (i < j)%nat → l !! j ≠ Some (k, v').
Proof.
  split.
  - induction l as [|[k' v'] l IH] using rev_ind; [done|].
    rewrite dict_of_list_snoc, lookup_insert_Some.
    intros [[-> ->]|[Hne Hl]].
    + exists (length l). split; [by rewrite lookup_app_r, Nat.sub_diag by lia|].
      intros j v'' Hj Hlook. apply lookup_lt_Some in Hlook.
      rewrite length_app in Hlook. simpl in Hlook. lia.
    + destruct (IH Hl) as (i & Hi & Hlast). exists i. split.
      * by rewrite lookup_app_l by by eapply lookup_lt_Some.
      * intros j v'' Hj Hlook.
        destruct (decide (j < length l)%nat) as [Hlt|Hge].
        -- rewrite lookup_app_l in Hlook by done. by eapply Hlast.
        -- rewrite lookup_app_r in Hlook by lia.
           destruct (j - length l)%nat; simplify_eq/=.
  - intros (i & Hi & Hlast).
    rewrite <- (take_drop_middle l i (k, v)) by done.
    apply dict_of_list_lookup_last.
    intros ([k' v'] & Hk & (j & Hj)%list_elem_of_lookup)%list_elem_of_fmap.
    simpl in Hk. subst k'. rewrite lookup_drop in Hj.
    apply (Hlast (S i + j)%nat v'); [lia | done].
Qed.

(** Line 82 for any ordering list: building the assignment never fails,
    and a wavelength is assigned the region at the last of its positions
    that still has a region; with a repeated wavelength the region at its
    earlier position is left without a wavelength. *)
Theorem build_axes_last_position_wins (order : list Z) (regions : list nat) :
  ∃ axes, build_axes order regions = Ok axes ∧
    ∀ wave (ax : nat),
      axes !! wave = Some ax ↔
      ∃ i : nat, order !! i = Some wave ∧ regions !! i = Some ax ∧
        ∀ j : nat, (i < j)%nat → (j < length regions)%nat →
                   order !! j ≠ Some wave.
Proof.
  eexists. split; [reflexivity|]. intros wave ax.
  rewrite dict_of_list_lookup_Some_iff. split.
  - intros (i & Hi & Hlast). exists i.
    apply lookup_zip_with_Some in Hi as (w' & a' & [= <- <-] & Ho & Hr).
    split_and!; [done..|]. intros j Hj Hlt Hoj.
    destruct (lookup_lt_is_Some_2 regions j Hlt) as [a Ha].
    apply (Hlast j a Hj). apply lookup_zip_with_Some. by exists wave, a.
  - intros (i & Ho & Hr & Hlast). exists i. split.
    + apply lookup_zip_with_Some. by exists wave, ax.
    + intros j a Hj (w' & a' & [= <- <-] & Hoj & Hrj)%lookup_zip_with_Some.
      apply (Hlast j Hj); [by eapply lookup_lt_Some | done].
Qed.

Example repeated_wavelength_leaves_a_region_unused :
  ∃ axes, build_axes [335; 211; 335] [0; 1; 2]%nat = Ok axes ∧
          axes !! 335 = Some 2%nat ∧ axes !! 211 = Some 1%nat ∧
          (∀ wave, axes !! wave ≠ Some 0%nat).
Proof.
  eexists. split; [reflexivity|]. split; [reflexivity|]. split; [reflexivity|].
  intros wave Hw. pose proof Hw as Hin.
  apply dict_of_list_lookup_Some, list_elem_of_In in Hin. simpl in Hin.
  destruct Hin as [Hin|[Hin|[Hin|[]]]]; try discriminate Hin.
  injection Hin as <-. vm_compute in Hw. discriminate Hw.
Qed.
